(** * open-weather: a Cloudflare Worker relaying city-weather queries

    Shallow embedding of the three handler variants of the repository and of
    the fixed-window rate limiter they share:

    - [IndexTs]: [src/index.ts] (limit 10, no CORS, plain-text errors);
    - [PartA]:   first file of [unnamed/part_000] (CORS, path check, the
                 limiter commented out);
    - [PartB]:   second file of [unnamed/part_000] (CORS, Secrets Store
                 credential, limiter active with limit 30).

    Strings.  A JavaScript string is represented by the [string] of the bytes
    of its UTF-8 encoding.  Every string the handlers touch is well formed
    (header values, KV text, URL search parameters, literals), and on such
    strings concatenation, equality and emptiness coincide with those of the
    encodings.

    Numbers.  Every number the handlers compute is an integer or [NaN];
    [Num z] stands for the double nearest to [z], which is [z] itself up to
    2^53, far above every value the limiter ever writes.  Rounding is monotone
    and fixes small integers, so a comparison with the limit is the same on
    [z] and on its double. *)

From Stdlib Require Import ZArith Ascii String List Lia Bool.
From stdpp Require Import base decidable option numbers strings pretty list gmap.

Local Open Scope string_scope.
Local Open Scope Z_scope.

(** ** The JavaScript built-ins the handlers call *)

Module JS.

(** A [number]: an integer, or [NaN]. *)
Inductive number : Type :=
| Num (z : Z)
| NaN.

(** [String(n)]: the decimal digits of an integer (JavaScript switches to
    exponent notation from 10^21 on, which no count or window index
    reaches). *)
Definition ToString (n : number) : string :=
  match n with
  | Num z => pretty z
  | NaN => "NaN"
  end.

(** [a + b], [a - b] and [a >= b]; [NaN] is contagious and compares false.
    Sums and differences are exact, as they are in JavaScript for integers
    up to 2^53 in absolute value; beyond that JavaScript rounds, and the
    properties that go through [add] or [sub] are stated for counts from 0
    to the limit, or for [NaN]. *)
Definition add (a b : number) : number :=
  match a, b with
  | Num x, Num y => Num (x + y)
  | _, _ => NaN
  end.

Definition sub (a b : number) : number :=
  match a, b with
  | Num x, Num y => Num (x - y)
  | _, _ => NaN
  end.

Definition ge (a b : number) : bool :=
  match a, b with
  | Num x, Num y => x >=? y
  | _, _ => false
  end.

(** Truthiness of a string: only the empty string is falsy. *)
Definition truthy (s : string) : bool :=
  match s with
  | EmptyString => false
  | String _ _ => true
  end.

(** [a || b] on a [string | null] left operand. *)
Definition or_else (a : option string) (b : string) : string :=
  match a with
  | Some s => if truthy s then s else b
  | None => b
  end.

Definition code (c : ascii) : Z := Z.of_N (N_of_ascii c).

(** *** [parseInt(s, 10)] *)

(** The white space [parseInt] skips (WhiteSpace and LineTerminator of
    ECMAScript), read off the UTF-8 bytes: TAB, LF, VT, FF, CR and SP on one
    byte; U+00A0 on two; U+1680, U+2000..U+200A, U+2028, U+2029, U+202F,
    U+205F, U+3000 and U+FEFF on three. *)
Definition ws1 (a : Z) : bool :=
  ((9 <=? a) && (a <=? 13)) || (a =? 32).

Definition ws2 (a b : Z) : bool :=
  (a =? 194) && (b =? 160).

Definition ws3 (a b c : Z) : bool :=
  ((a =? 225) && (b =? 154) && (c =? 128))
  || ((a =? 226) && (b =? 128)
      && (((128 <=? c) && (c <=? 138)) || (c =? 168) || (c =? 169) || (c =? 175)))
  || ((a =? 226) && (b =? 129) && (c =? 159))
  || ((a =? 227) && (b =? 128) && (c =? 128))
  || ((a =? 239) && (b =? 187) && (c =? 191)).

Fixpoint skipWhiteSpace (s : string) : string :=
  match s with
  | String a r1 =>
      if ws1 (code a) then skipWhiteSpace r1
      else match r1 with
           | String b r2 =>
               if ws2 (code a) (code b) then skipWhiteSpace r2
               else match r2 with
                    | String c r3 =>
                        if ws3 (code a) (code b) (code c) then skipWhiteSpace r3
                        else s
                    | EmptyString => s
                    end
           | EmptyString => s
           end
  | EmptyString => s
  end.

Definition digit (c : ascii) : option Z :=
  if (48 <=? code c) && (code c <=? 57) then Some (code c - 48) else None.

(** Value of the longest prefix of decimal digits; [acc] is [None] until a
    digit has been read. *)
Fixpoint digits (s : string) (acc : option Z) : option Z :=
  match s with
  | String c r =>
      match digit c with
      | Some d => digits r (Some (10 * default 0 acc + d))
      | None => acc
      end
  | EmptyString => acc
  end.

Definition parseInt (s : string) : number :=
  let t := skipWhiteSpace s in
  let '(sign, u) :=
    match t with
    | String "-" r => (-1, r)
    | String "+" r => (1, r)
    | _ => (1, t)
    end in
  match digits u None with
  | Some m => Num (sign * m)
  | None => NaN
  end.

(** *** [encodeURIComponent] *)

Definition hexUpper (n : Z) : ascii :=
  ascii_of_N (Z.to_N (if n <? 10 then 48 + n else 55 + n)).

Definition hexLower (n : Z) : ascii :=
  ascii_of_N (Z.to_N (if n <? 10 then 48 + n else 87 + n)).

(** A-Z a-z 0-9 - _ . ! ~ * ' ( ) *)
Definition uriUnreserved (a : Z) : bool :=
  ((65 <=? a) && (a <=? 90)) || ((97 <=? a) && (a <=? 122))
  || ((48 <=? a) && (a <=? 57))
  || (a =? 45) || (a =? 95) || (a =? 46) || (a =? 33) || (a =? 126)
  || (a =? 42) || (a =? 39) || (a =? 40) || (a =? 41).

(** Every byte of the UTF-8 encoding outside the unreserved set becomes
    [%XX]. *)
Fixpoint encodeURIComponent (s : string) : string :=
  match s with
  | String c r =>
      (if uriUnreserved (code c) then String c EmptyString
       else String "%" (String (hexUpper (code c / 16))
              (String (hexUpper (code c mod 16)) EmptyString)))
      +:+ encodeURIComponent r
  | EmptyString => EmptyString
  end.

(** *** [JSON.stringify] on the flat object literals of the handlers *)

Inductive value : Type :=
| JString (s : string)
| JNumber (n : number).

Definition quoteChar (c : ascii) : string :=
  let a := code c in
  if a =? 34 then "\" +:+ String c EmptyString
  else if a =? 92 then "\\"
  else if a =? 8 then "\b"
  else if a =? 9 then "\t"
  else if a =? 10 then "\n"
  else if a =? 12 then "\f"
  else if a =? 13 then "\r"
  else if a <? 32 then
    "\u00" +:+ String (hexLower (a / 16)) (String (hexLower (a mod 16)) EmptyString)
  else String c EmptyString.

Fixpoint quoteBody (s : string) : string :=
  match s with
  | String c r => quoteChar c +:+ quoteBody r
  | EmptyString => EmptyString
  end.

Definition dquote : string := String (ascii_of_N 34) EmptyString.

Definition quote (s : string) : string := dquote +:+ quoteBody s +:+ dquote.

Definition stringifyValue (v : value) : string :=
  match v with
  | JString s => quote s
  | JNumber (Num z) => pretty z
  | JNumber NaN => "null"
  end.

Fixpoint stringifyFields (fs : list (string * value)) : string :=
  match fs with
  | [] => EmptyString
  | [(k, v)] => quote k +:+ ":" +:+ stringifyValue v
  | (k, v) :: rest => quote k +:+ ":" +:+ stringifyValue v +:+ "," +:+ stringifyFields rest
  end.

Definition JSON_stringify (fs : list (string * value)) : string :=
  "{" +:+ stringifyFields fs +:+ "}".

(** *** Thrown values *)

Inductive thrown : Type :=
| ErrorObject (name message : string)   (* [err instanceof Error] *)
| Other (str : string).                 (* anything else; [str] is [String(err)] *)

Definition String_of_thrown (e : thrown) : string :=
  match e with
  | ErrorObject name message =>
      if negb (truthy name) then message
      else if negb (truthy message) then name
      else name +:+ ": " +:+ message
  | Other str => str
  end.

(** [err instanceof Error ? err.message : String(err)] *)
Definition errorMessage (e : thrown) : string :=
  match e with
  | ErrorObject _ message => message
  | Other str => str
  end.

End JS.

(** ** The platform: clock, KV namespace, upstream, effects *)

(** A KV entry with the absolute time (seconds) at which it expires. *)
Record KVEntry : Type := { value : string; expiration : Z }.

(** What a handler run does to the outside world, in order. *)
Inductive Event : Type :=
| KVGet (key : string)
| KVPut (key val : string) (expirationTtl : Z)
| SecretGet
| UpstreamFetch (url : string).

(** The [Response] of the global [fetch]: its status, and what [json()]
    gives.  The handlers only ever pass the parsed payload to
    [JSON.stringify], so the payload is carried by that rendering. *)
Module Upstream.
Record t : Type := { status : Z; json : JS.thrown + string }.

Definition ok (r : t) : bool := (200 <=? status r) && (status r <=? 299).
End Upstream.

(** [Date_now] is [Date.now()] (milliseconds), taken as one instant for the
    whole request; [upstream] answers the global [fetch]. *)
Record Platform : Type := {
  Date_now : Z;
  upstream : string -> JS.thrown + Upstream.t
}.

Inductive Outcome (A : Type) : Type :=
| Returned (a : A)
| Threw (e : JS.thrown).
Arguments Returned {A} a.
Arguments Threw {A} e.

(** An [async] computation: from the KV namespace it starts on to its
    outcome, the namespace it leaves and the events it caused. *)
Record Run (A : Type) : Type := {
  outcome : Outcome A;
  store : gmap string KVEntry;
  events : list Event
}.
Arguments outcome {A} r.
Arguments store {A} r.
Arguments events {A} r.

Definition Async (A : Type) : Type := gmap string KVEntry -> Run A.

Definition ret {A} (a : A) : Async A :=
  fun kv => {| outcome := Returned a; store := kv; events := [] |}.

Definition throw {A} (e : JS.thrown) : Async A :=
  fun kv => {| outcome := Threw e; store := kv; events := [] |}.

Definition bind {A B} (m : Async A) (k : A -> Async B) : Async B :=
  fun kv =>
    let r := m kv in
    match outcome r with
    | Returned a =>
        let r' := k a (store r) in
        {| outcome := outcome r'; store := store r'; events := events r ++ events r' |}
    | Threw e => {| outcome := Threw e; store := store r; events := events r |}
    end.

(** [try { m } catch (err) { h err }] *)
Definition try_catch {A} (m : Async A) (h : JS.thrown -> Async A) : Async A :=
  fun kv =>
    let r := m kv in
    match outcome r with
    | Returned a => r
    | Threw e =>
        let r' := h e (store r) in
        {| outcome := outcome r'; store := store r'; events := events r ++ events r' |}
    end.

Notation "x <- m ;; k" := (bind m (fun x => k))
  (at level 100, m at next level, right associativity).

(** [Math.floor(Date.now() / 1000)], the clock of the KV namespace too. *)
Definition now (P : Platform) : Z := Date_now P / 1000.

(** What a read of [key] sees at the instant of [P]: the text stored under
    it, [null] when there is none or it has expired. *)
Definition KV_value (P : Platform) (kv : gmap string KVEntry) (key : string) : option string :=
  match kv !! key with
  | Some e => if now P <? expiration e then Some (value e) else None
  | None => None
  end.

(** [kv.get(key)] *)
Definition kv_get (P : Platform) (key : string) : Async (option string) :=
  fun kv =>
    {| outcome := Returned (KV_value P kv key);
       store := kv;
       events := [KVGet key] |}.

(** [kv.put(key, val, { expirationTtl })] *)
Definition kv_put (P : Platform) (key val : string) (expirationTtl : Z) : Async unit :=
  fun kv =>
    {| outcome := Returned tt;
       store := <[key := {| value := val; expiration := now P + expirationTtl |}]> kv;
       events := [KVPut key val expirationTtl] |}.

(** The global [fetch(url)] *)
Definition global_fetch (P : Platform) (url : string) : Async Upstream.t :=
  fun kv =>
    {| outcome := match upstream P url with inl e => Threw e | inr r => Returned r end;
       store := kv;
       events := [UpstreamFetch url] |}.

(** [resp.json()] *)
Definition resp_json (r : Upstream.t) : Async string :=
  match Upstream.json r with
  | inl e => throw e
  | inr data => ret data
  end.

(** [binding.get()] of a Secrets Store binding *)
Definition secret_get (get : JS.thrown + string) : Async string :=
  fun kv =>
    {| outcome := match get with inl e => Threw e | inr s => Returned s end;
       store := kv;
       events := [SecretGet] |}.

(** ** Requests and responses *)

Module Headers.
Definition lower (c : ascii) : ascii :=
  if (65 <=? JS.code c) && (JS.code c <=? 90)
  then ascii_of_N (Z.to_N (JS.code c + 32)) else c.

Fixpoint lowercase (s : string) : string :=
  match s with
  | String c r => String (lower c) (lowercase r)
  | EmptyString => EmptyString
  end.

Definition same_name (a b : string) : bool :=
  String.eqb (lowercase a) (lowercase b).

(** [headers.get(name)]: names compare without case; several values are
    joined by a comma and a space. *)
Definition get (h : list (string * string)) (name : string) : option string :=
  match List.filter (fun kv => same_name (fst kv) name) h with
  | [] => None
  | (_, v) :: rest => Some (fold_left (fun acc kv => acc +:+ ", " +:+ snd kv) rest v)
  end.
End Headers.

Module URL.
Record t : Type := { pathname : string; searchParams : list (string * string) }.

(** [url.searchParams.get(name)]: the first value under [name] *)
Fixpoint get (params : list (string * string)) (name : string) : option string :=
  match params with
  | (k, v) :: rest => if String.eqb k name then Some v else get rest name
  | [] => None
  end.
End URL.

Module Request.
Record t : Type := {
  method : string;
  url : URL.t;
  headers : list (string * string)
}.
End Request.

Module Response.
Record t : Type := {
  status : Z;
  headers : list (string * string);
  body : option string
}.

(** [new Response(body, { status, headers })]: a text body without a
    [Content-Type] among the given headers gets the default one. *)
Definition new (body : option string) (status : Z) (headers : list (string * string)) : t :=
  {| status := status;
     headers :=
       match body, Headers.get headers "content-type" with
       | Some _, None => headers ++ [("content-type", "text/plain;charset=UTF-8")]
       | _, _ => headers
       end;
     body := body |}.
End Response.

(** ** Code shared by the variants *)

Definition RATE_LIMIT_WINDOW : Z := 60.

Definition getClientIP (request : Request.t) : string :=
  JS.or_else (Headers.get (Request.headers request) "CF-Connecting-IP") "unknown".

Record RateDecision : Type := { allowed : bool; remaining : JS.number }.

Section RateLimiter.

(** 10 in [src/index.ts], 30 in [unnamed/part_000]. *)
Variable RATE_LIMIT : Z.
Variable P : Platform.

Definition windowKey : Z := now P / RATE_LIMIT_WINDOW.

Definition fullKey (ip : string) : string :=
  let key := "rate_limit:" +:+ ip in
  key +:+ ":" +:+ JS.ToString (JS.Num windowKey).

(** [current ? parseInt(current, 10) : 0] *)
Definition readCount (current : option string) : JS.number :=
  match current with
  | Some s => if JS.truthy s then JS.parseInt s else JS.Num 0
  | None => JS.Num 0
  end.

Definition checkRateLimit (ip : string) : Async RateDecision :=
  current <- kv_get P (fullKey ip) ;;
  let count := readCount current in
  if JS.ge count (JS.Num RATE_LIMIT) then
    ret {| allowed := false; remaining := JS.Num 0 |}
  else
    _ <- kv_put P (fullKey ip) (JS.ToString (JS.add count (JS.Num 1))) RATE_LIMIT_WINDOW ;;
    ret {| allowed := true;
           remaining := JS.sub (JS.sub (JS.Num RATE_LIMIT) count) (JS.Num 1) |}.

End RateLimiter.

(** Sequential calls, one after the other has completed, each at its own
    instant. *)
Fixpoint checkRateLimit_seq (RATE_LIMIT : Z) (calls : list (Platform * string))
    (kv : gmap string KVEntry) : list (Run RateDecision) :=
  match calls with
  | [] => []
  | (P, ip) :: rest =>
      let r := checkRateLimit RATE_LIMIT P ip kv in
      r :: checkRateLimit_seq RATE_LIMIT rest (store r)
  end.

Definition allowedOrigins : list string :=
  [ "http://127.0.0.1:5500";
    "http://localhost:5500";
    "http://127.0.0.1:3000";
    "http://localhost:3000";
    "http://127.0.0.1:5173";
    "http://localhost:5173";
    "http://127.0.0.1:8080";
    "http://localhost:8080" ].

(** [allowedOrigins.includes(origin)] *)
Definition includes (l : list string) (s : string) : bool :=
  existsb (String.eqb s) l.

Definition getCorsHeaders (origin : option string) : list (string * string) :=
  let allowedOrigin :=
    match origin with
    | Some o => if JS.truthy o && includes allowedOrigins o then o else "*"
    | None => "*"
    end in
  [ ("Access-Control-Allow-Origin", allowedOrigin);
    ("Access-Control-Allow-Methods", "GET, POST, OPTIONS");
    ("Access-Control-Allow-Headers", "Content-Type, Authorization");
    ("Access-Control-Max-Age", "86400") ].

(** The URL of the OpenWeatherMap request. *)
Definition apiUrl (city apiKey : string) : string :=
  "https://api.openweathermap.org/data/2.5/weather?q=" +:+ JS.encodeURIComponent city
  +:+ "&appid=" +:+ apiKey +:+ "&units=metric&lang=zh_cn".

(** ** [src/index.ts] *)

Module IndexTs.

Record Env : Type := { WEATHER_API_KEY : string }.

Definition RATE_LIMIT : Z := 10.

Definition fetch (P : Platform) (request : Request.t) (env : Env) : Async Response.t :=
  let ip := getClientIP request in
  let url := Request.url request in
  try_catch
    (testValue <- kv_get P "abc" ;;
     d <- checkRateLimit RATE_LIMIT P ip ;;
     if negb (allowed d) then
       ret (Response.new
              (Some (JS.JSON_stringify
                       [ ("error", JS.JString "请求过于频繁，请稍后再试");
                         ("retryAfter", JS.JNumber (JS.Num RATE_LIMIT_WINDOW)) ]))
              429
              [ ("Content-Type", "application/json");
                ("Retry-After", JS.ToString (JS.Num RATE_LIMIT_WINDOW));
                ("X-RateLimit-Limit", JS.ToString (JS.Num RATE_LIMIT));
                ("X-RateLimit-Remaining", "0") ])
     else
       let city := JS.or_else (URL.get (URL.searchParams url) "city") "Beijing" in
       resp <- global_fetch P (apiUrl city (WEATHER_API_KEY env)) ;;
       if negb (Upstream.ok resp) then
         ret (Response.new
                (Some ("Weather API Error: " +:+ JS.ToString (JS.Num (Upstream.status resp))))
                502 [])
       else
         data <- resp_json resp ;;
         ret (Response.new (Some data) 200
                [ ("Content-Type", "application/json");
                  ("X-RateLimit-Limit", JS.ToString (JS.Num RATE_LIMIT));
                  ("X-RateLimit-Remaining", JS.ToString (remaining d)) ]))
    (fun err =>
       ret (Response.new (Some ("Internal Error: " +:+ JS.String_of_thrown err)) 500 [])).

End IndexTs.

(** The JSON error responses of [unnamed/part_000]:
    [{ ...getCorsHeaders(origin), 'Content-Type': 'application/json' }]. *)
Definition jsonHeaders (origin : option string) : list (string * string) :=
  getCorsHeaders origin ++ [("Content-Type", "application/json")].

(** ** [unnamed/part_000], first file: path check, limiter disabled *)

Module PartA.

(** What [env.WEATHER_API_KEY] may be at run time. *)
Inductive Binding : Type :=
| Undefined                                 (* not configured: [undefined] *)
| Plain (s : string)                        (* [typeof] is ['string'] *)
| SecretsStore (get : JS.thrown + string)   (* an object with a [get()] method *)
| Unrecognised (typeof : string).           (* any other truthy value *)

Record Env : Type := { WEATHER_API_KEY : Binding }.

Definition RATE_LIMIT : Z := 30.

Definition falsy (b : Binding) : bool :=
  match b with
  | Undefined => true
  | Plain s => negb (JS.truthy s)
  | _ => false
  end.

Definition emptyKey (origin : option string) : Response.t :=
  Response.new
    (Some (JS.JSON_stringify [ ("error", JS.JString "服务器配置错误：API Key 为空") ]))
    500 (jsonHeaders origin).

(** The inner [try] block: either the handler returns from inside it, or
    [apiKey] is set. *)
Definition resolveApiKey (env : Env) (origin : option string) : Async (Response.t + string) :=
  try_catch
    (if falsy (WEATHER_API_KEY env) then
       ret (inl (Response.new
                   (Some (JS.JSON_stringify
                            [ ("error", JS.JString "服务器配置错误：Secrets Store 绑定未配置");
                              ("hint", JS.JString "请在 Cloudflare Dashboard 中配置 Secrets Store 绑定，或检查 wrangler.jsonc 配置") ]))
                   500 (jsonHeaders origin)))
     else
       match WEATHER_API_KEY env with
       | Plain s =>
           let apiKey := s in
           if negb (JS.truthy apiKey) then ret (inl (emptyKey origin)) else ret (inr apiKey)
       | SecretsStore get =>
           apiKey <- secret_get get ;;
           if negb (JS.truthy apiKey) then ret (inl (emptyKey origin)) else ret (inr apiKey)
       | b =>
           ret (inl (Response.new
                       (Some (JS.JSON_stringify
                                [ ("error", JS.JString "服务器配置错误：Secrets Store 绑定类型不正确");
                                  ("type", JS.JString
                                             match b with
                                             | Unrecognised typeof => typeof
                                             | _ => "undefined"
                                             end) ]))
                       500 (jsonHeaders origin)))
       end)
    (fun err =>
       ret (inl (Response.new
                   (Some (JS.JSON_stringify
                            [ ("error", JS.JString "服务器配置错误：无法获取 API Key");
                              ("message", JS.JString (JS.errorMessage err)) ]))
                   500 (jsonHeaders origin)))).

Definition fetch (P : Platform) (request : Request.t) (env : Env) : Async Response.t :=
  let ip := getClientIP request in
  let url := Request.url request in
  let origin := Headers.get (Request.headers request) "Origin" in
  if String.eqb (Request.method request) "OPTIONS" then
    ret (Response.new None 204 (getCorsHeaders origin))
  else if negb (String.eqb (URL.pathname url) "/") then
    ret (Response.new
           (Some (JS.JSON_stringify
                    [ ("error", JS.JString "Not Found");
                      ("message", JS.JString ("路径 " +:+ URL.pathname url +:+ " 不存在")) ]))
           404 (jsonHeaders origin))
  else
    try_catch
      (k <- resolveApiKey env origin ;;
       match k with
       | inl response => ret response
       | inr apiKey =>
             let allowed := true in
             let remaining := JS.Num 100 in
             if negb allowed then
               ret (Response.new
                      (Some (JS.JSON_stringify
                               [ ("error", JS.JString "请求过于频繁，请稍后再试");
                                 ("retryAfter", JS.JNumber (JS.Num RATE_LIMIT_WINDOW)) ]))
                      429
                      (getCorsHeaders origin ++
                       [ ("Content-Type", "application/json");
                         ("Retry-After", JS.ToString (JS.Num RATE_LIMIT_WINDOW));
                         ("X-RateLimit-Limit", JS.ToString (JS.Num RATE_LIMIT));
                         ("X-RateLimit-Remaining", "0") ]))
             else
               let city := JS.or_else (URL.get (URL.searchParams url) "city") "Beijing" in
               resp <- global_fetch P (apiUrl city apiKey) ;;
               if negb (Upstream.ok resp) then
                 ret (Response.new
                        (Some (JS.JSON_stringify
                                 [ ("error", JS.JString "天气API请求失败");
                                   ("status", JS.JNumber (JS.Num (Upstream.status resp))) ]))
                        502 (jsonHeaders origin))
               else
                 data <- resp_json resp ;;
                 ret (Response.new (Some data) 200
                        (getCorsHeaders origin ++
                         [ ("Content-Type", "application/json");
                           ("X-RateLimit-Limit", JS.ToString (JS.Num RATE_LIMIT));
                           ("X-RateLimit-Remaining", JS.ToString remaining) ]))
       end)
      (fun err =>
         ret (Response.new
                (Some (JS.JSON_stringify
                         [ ("error", JS.JString "服务器内部错误");
                           ("message", JS.JString (JS.errorMessage err)) ]))
                500 (jsonHeaders origin))).

End PartA.

(** ** [unnamed/part_000], second file: Secrets Store credential, limiter active *)

Module PartB.

(** [WEATHER_API_KEY] is a Secrets Store binding, given by what its [get()]
    does. *)
Record Env : Type := { WEATHER_API_KEY : JS.thrown + string }.

Definition RATE_LIMIT : Z := 30.

Definition resolveApiKey (env : Env) (origin : option string) : Async (Response.t + string) :=
  try_catch
    (apiKey <- secret_get (WEATHER_API_KEY env) ;;
     if negb (JS.truthy apiKey) then
       ret (inl (Response.new
                   (Some (JS.JSON_stringify
                            [ ("error", JS.JString "服务器配置错误：API Key 为空") ]))
                   500 (jsonHeaders origin)))
     else ret (inr apiKey))
    (fun err =>
       ret (inl (Response.new
                   (Some (JS.JSON_stringify
                            [ ("error", JS.JString "服务器配置错误：无法获取 API Key");
                              ("message", JS.JString (JS.errorMessage err)) ]))
                   500 (jsonHeaders origin)))).

Definition fetch (P : Platform) (request : Request.t) (env : Env) : Async Response.t :=
  let ip := getClientIP request in
  let url := Request.url request in
  let origin := Headers.get (Request.headers request) "Origin" in
  if String.eqb (Request.method request) "OPTIONS" then
    ret (Response.new None 204 (getCorsHeaders origin))
  else
    try_catch
      (k <- resolveApiKey env origin ;;
       match k with
       | inl response => ret response
       | inr apiKey =>
           testValue <- kv_get P "abc" ;;
           d <- checkRateLimit RATE_LIMIT P ip ;;
           if negb (allowed d) then
             ret (Response.new
                    (Some (JS.JSON_stringify
                             [ ("error", JS.JString "请求过于频繁，请稍后再试");
                               ("retryAfter", JS.JNumber (JS.Num RATE_LIMIT_WINDOW)) ]))
                    429
                    (getCorsHeaders origin ++
                     [ ("Content-Type", "application/json");
                       ("Retry-After", JS.ToString (JS.Num RATE_LIMIT_WINDOW));
                       ("X-RateLimit-Limit", JS.ToString (JS.Num RATE_LIMIT));
                       ("X-RateLimit-Remaining", "0") ]))
           else
             let city := JS.or_else (URL.get (URL.searchParams url) "city") "Beijing" in
             resp <- global_fetch P (apiUrl city apiKey) ;;
             if negb (Upstream.ok resp) then
               ret (Response.new
                      (Some (JS.JSON_stringify
                               [ ("error", JS.JString "天气API请求失败");
                                 ("status", JS.JNumber (JS.Num (Upstream.status resp))) ]))
                      502 (jsonHeaders origin))
             else
               data <- resp_json resp ;;
               ret (Response.new (Some data) 200
                      (getCorsHeaders origin ++
                       [ ("Content-Type", "application/json");
                         ("X-RateLimit-Limit", JS.ToString (JS.Num RATE_LIMIT));
                         ("X-RateLimit-Remaining", JS.ToString (remaining d)) ]))
       end)
      (fun err =>
         ret (Response.new
                (Some (JS.JSON_stringify
                         [ ("error", JS.JString "服务器内部错误");
                           ("message", JS.JString (JS.errorMessage err)) ]))
                500 (jsonHeaders origin))).

End PartB.

(** ** Vocabulary of the statements *)

(** The decision of a call that finds the count [n] stored. *)
Definition decisionAt (L n : Z) : RateDecision :=
  if n <? L then {| allowed := true; remaining := JS.Num (L - n - 1) |}
  else {| allowed := false; remaining := JS.Num 0 |}.

(** A stored value is the decimal rendering of a count between 0 and the
    limit, and reads back as that count. *)
Definition counter_in_range (L : Z) (e : KVEntry) : Prop :=
  ∃ c : Z, value e = JS.ToString (JS.Num c)
           ∧ readCount (Some (value e)) = JS.Num c
           ∧ 0 ≤ c ≤ L.

Fixpoint colon_free (s : string) : bool :=
  match s with
  | String c r => negb (JS.code c =? 58) && colon_free r
  | EmptyString => true
  end.

(** Ports 3000, 5173, 5500 and 8080 on 127.0.0.1 and on localhost. *)
Definition loopback_origins : list string :=
  host ← ["127.0.0.1"; "localhost"];
  port ← ["3000"; "5173"; "5500"; "8080"];
  ["http://" +:+ host +:+ ":" +:+ port].

(** The city a request asks for: [url.searchParams.get('city') || 'Beijing']. *)
Definition city_of (request : Request.t) : string :=
  JS.or_else (URL.get (URL.searchParams (Request.url request)) "city") "Beijing".

(** The 502 of [unnamed/part_000]. *)
Definition upstream_error (origin : option string) (resp : Upstream.t) : Response.t :=
  Response.new
    (Some (JS.JSON_stringify
             [ ("error", JS.JString "天气API请求失败");
               ("status", JS.JNumber (JS.Num (Upstream.status resp))) ]))
    502 (jsonHeaders origin).

Definition with_method (m : string) (request : Request.t) : Request.t :=
  {| Request.method := m;
     Request.url := Request.url request;
     Request.headers := Request.headers request |}.

(** ** Sample platforms, stores and requests *)

(** No upstream; the clock reads [t]. *)
Definition offline (t : Z) : Platform :=
  {| Date_now := t; upstream := λ _, inl (JS.Other "offline") |}.

(** Eleven instants one second apart in the third minute of the epoch. *)
Definition third_minute : list Platform :=
  map (λ i, offline (120000 + 1000 * i)) [0; 1; 2; 3; 4; 5; 6; 7; 8; 9; 10].

(** An upstream that answers every request with status 200 and a payload. *)
Definition sunny (t : Z) : Platform :=
  {| Date_now := t;
     upstream := λ _, inr {| Upstream.status := 200; Upstream.json := inr "{}" |} |}.

(** An upstream that answers every request with status 404. *)
Definition upstream_404 : Platform :=
  {| Date_now := 125000;
     upstream := λ _, inr {| Upstream.status := 404; Upstream.json := inr "{}" |} |}.

(** A bucket that is full for limit 10, and one holding text that is no
    number. *)
Definition full_bucket : gmap string KVEntry :=
  {[ "rate_limit:203.0.113.7:2" := {| value := "10"; expiration := 185 |} ]}.

Definition garbled : gmap string KVEntry :=
  {[ "rate_limit:203.0.113.7:2" := {| value := "abc"; expiration := 185 |} ]}.

Definition preflight : Request.t :=
  {| Request.method := "OPTIONS";
     Request.url := {| URL.pathname := "/"; URL.searchParams := [] |};
     Request.headers := [("Origin", "http://localhost:5173")] |}.

Definition get_root (params : list (string * string)) : Request.t :=
  {| Request.method := "GET";
     Request.url := {| URL.pathname := "/"; URL.searchParams := params |};
     Request.headers := [("CF-Connecting-IP", "203.0.113.7")] |}.

(** ** Vocabulary of the further properties *)

(** A call [c] counts against the bucket that a call for [ip] at the instant
    of [P] uses: same IP, same window. *)
Definition same_bucket (P : Platform) (ip : string) (c : Platform * string) : bool :=
  bool_decide (c.2 = ip ∧ windowKey c.1 = windowKey P).

(** How many of [done] fell in the bucket of [ip] at the instant of [P]. *)
Definition bucket_count (past : list (Platform * string)) (P : Platform) (ip : string) : Z :=
  Z.of_nat (length (List.filter (same_bucket P ip) past)).

(** What every read sees after the calls [done]: the number of calls of its
    bucket, capped at the limit. *)
Definition counts_calls (L : Z) (past : list (Platform * string))
    (kv : gmap string KVEntry) : Prop :=
  ∀ P ip, readCount (KV_value P kv (fullKey P ip))
          = JS.Num (Z.min (bucket_count past P ip) (Z.max L 0)).

(** The store a sequence of calls leaves. *)
Definition checkRateLimit_final (RATE_LIMIT : Z) (calls : list (Platform * string))
    (kv : gmap string KVEntry) : gmap string KVEntry :=
  fold_left (λ kv c, store (checkRateLimit RATE_LIMIT c.1 c.2 kv)) calls kv.

(** Whether a run of the limiter ended in an allowed decision. *)
Definition was_allowed (r : Run RateDecision) : bool :=
  match outcome r with
  | Returned d => allowed d
  | Threw _ => false
  end.

(** How many calls of the bucket of [ip] at the instant of [P] a sequence of
    calls from the empty store allowed. *)
Definition allowed_in_bucket (L : Z) (calls : list (Platform * string))
    (P : Platform) (ip : string) : Z :=
  Z.of_nat (length (List.filter (λ cr, same_bucket P ip cr.1 && was_allowed cr.2)
                                (zip calls (checkRateLimit_seq L calls ∅)))).

(** The upstream calls among the events of a run. *)
Definition upstream_calls (evs : list Event) : list string :=
  flat_map (λ e, match e with UpstreamFetch url => [url] | _ => [] end) evs.

(** The KV operations among the events of a run. *)
Definition kv_events (evs : list Event) : list Event :=
  List.filter (λ e, match e with KVGet _ | KVPut _ _ _ => true | _ => false end) evs.

(** The characters [encodeURIComponent] can produce. *)
Fixpoint uri_safe (s : string) : bool :=
  match s with
  | String c r => (JS.uriUnreserved (JS.code c) || (JS.code c =? 37)) && uri_safe r
  | EmptyString => true
  end.

(** Requests served one after the other by the handler of [src/index.ts],
    each at its own instant, on the store the previous one left. *)
Fixpoint IndexTs_serve (env : IndexTs.Env) (requests : list (Platform * Request.t))
    (kv : gmap string KVEntry) : list (Run Response.t) :=
  match requests with
  | [] => []
  | (P, request) :: rest =>
      let r := IndexTs.fetch P request env kv in
      r :: IndexTs_serve env rest (store r)
  end.

(** The limiter calls behind a sequence of requests. *)
Definition calls_of (requests : list (Platform * Request.t)) : list (Platform * string) :=
  map (λ c, (c.1, getClientIP c.2)) requests.

(** Whether a character with code [a] occurs in [s]. *)
Fixpoint has_char (a : Z) (s : string) : bool :=
  match s with
  | String c r => (JS.code c =? a) || has_char a r
  | EmptyString => false
  end.

Definition with_pathname (p : string) (request : Request.t) : Request.t :=
  {| Request.method := Request.method request;
     Request.url := {| URL.pathname := p;
                       URL.searchParams := URL.searchParams (Request.url request) |};
     Request.headers := Request.headers request |}.

(** The 429 of the two handlers with a limiter, over the headers that come
    first ([[]] in [src/index.ts], the CORS headers in [unnamed/part_000]). *)
Definition too_many_requests (L : Z) (first : list (string * string)) : Response.t :=
  Response.new
    (Some (JS.JSON_stringify
             [ ("error", JS.JString "请求过于频繁，请稍后再试");
               ("retryAfter", JS.JNumber (JS.Num RATE_LIMIT_WINDOW)) ]))
    429
    (first ++
     [ ("Content-Type", "application/json");
       ("Retry-After", JS.ToString (JS.Num RATE_LIMIT_WINDOW));
       ("X-RateLimit-Limit", JS.ToString (JS.Num L));
       ("X-RateLimit-Remaining", "0") ]).

(** The catch-all 500 of [unnamed/part_000]. *)
Definition internal_error (origin : option string) (e : JS.thrown) : Response.t :=
  Response.new
    (Some (JS.JSON_stringify
             [ ("error", JS.JString "服务器内部错误");
               ("message", JS.JString (JS.errorMessage e)) ]))
    500 (jsonHeaders origin).

(** The plain-text 502 and 500 of [src/index.ts]. *)
Definition plain_502 (resp : Upstream.t) : Response.t :=
  Response.new
    (Some ("Weather API Error: " +:+ JS.ToString (JS.Num (Upstream.status resp)))) 502 [].

Definition plain_500 (e : JS.thrown) : Response.t :=
  Response.new (Some ("Internal Error: " +:+ JS.String_of_thrown e)) 500 [].

(** The 200 that passes the upstream payload on, over the headers that come
    first. *)
Definition weather_response (first : list (string * string)) (L : Z)
    (remaining : JS.number) (data : string) : Response.t :=
  Response.new (Some data) 200
    (first ++
     [ ("Content-Type", "application/json");
       ("X-RateLimit-Limit", JS.ToString (JS.Num L));
       ("X-RateLimit-Remaining", JS.ToString remaining) ]).

(** The 204, the 404 and the configuration 500s of [unnamed/part_000]. *)
Definition no_content (origin : option string) : Response.t :=
  Response.new None 204 (getCorsHeaders origin).

Definition not_found (origin : option string) (pathname : string) : Response.t :=
  Response.new
    (Some (JS.JSON_stringify
             [ ("error", JS.JString "Not Found");
               ("message", JS.JString ("路径 " +:+ pathname +:+ " 不存在")) ]))
    404 (jsonHeaders origin).

Definition missing_binding (origin : option string) : Response.t :=
  Response.new
    (Some (JS.JSON_stringify
             [ ("error", JS.JString "服务器配置错误：Secrets Store 绑定未配置");
               ("hint", JS.JString "请在 Cloudflare Dashboard 中配置 Secrets Store 绑定，或检查 wrangler.jsonc 配置") ]))
    500 (jsonHeaders origin).

Definition wrong_binding (origin : option string) (typeof : string) : Response.t :=
  Response.new
    (Some (JS.JSON_stringify
             [ ("error", JS.JString "服务器配置错误：Secrets Store 绑定类型不正确");
               ("type", JS.JString typeof) ]))
    500 (jsonHeaders origin).

Definition key_unavailable (origin : option string) (e : JS.thrown) : Response.t :=
  Response.new
    (Some (JS.JSON_stringify
             [ ("error", JS.JString "服务器配置错误：无法获取 API Key");
               ("message", JS.JString (JS.errorMessage e)) ]))
    500 (jsonHeaders origin).

(** What a handler answers once it has called the upstream at [url]. *)
Definition relay (P : Platform) (url : string)
    (on_throw : JS.thrown → Response.t) (on_status : Upstream.t → Response.t)
    (on_data : string → Response.t) : Response.t :=
  match upstream P url with
  | inl e => on_throw e
  | inr resp =>
      if Upstream.ok resp then
        match Upstream.json resp with
        | inl e => on_throw e
        | inr data => on_data data
        end
      else on_status resp
  end.

(** The keys a run wrote to. *)
Definition kv_puts (evs : list Event) : list string :=
  flat_map (λ e, match e with KVPut key _ _ => [key] | _ => [] end) evs.

(** A bucket that is full for limit 30. *)
Definition full_bucket_30 : gmap string KVEntry :=
  {[ "rate_limit:203.0.113.7:2" := {| value := "30"; expiration := 185 |} ]}.

(** An upstream whose connection fails. *)
Definition unreachable : Platform :=
  {| Date_now := 125000;
     upstream := λ _, inl (JS.ErrorObject "TypeError" "fetch failed") |}.

(** Instants just before and just after the boundary between the third and
    the fourth minute. *)
Definition before_boundary : list Platform := [offline 179000; offline 179999].
Definition after_boundary : list Platform := [offline 180000; offline 180001].

(** * Properties *)

(** ** The built-ins on sample values *)

Example parseInt_leading_space : JS.parseInt "  42abc" = JS.Num 42.
Proof. reflexivity. Qed.

Example parseInt_signed : JS.parseInt "-7" = JS.Num (-7) ∧ JS.parseInt "+7" = JS.Num 7.
Proof. split; reflexivity. Qed.

Example parseInt_no_digits :
  JS.parseInt "abc" = JS.NaN ∧ JS.parseInt "-" = JS.NaN ∧ JS.parseInt EmptyString = JS.NaN.
Proof. repeat split. Qed.

Example ToString_samples :
  JS.ToString (JS.Num 0) = "0" ∧ JS.ToString (JS.Num 30) = "30"
  ∧ JS.ToString (JS.Num (-5)) = "-5" ∧ JS.ToString JS.NaN = "NaN".
Proof. repeat split. Qed.

Example encodeURIComponent_samples :
  JS.encodeURIComponent "Beijing" = "Beijing"
  ∧ JS.encodeURIComponent "New York/é" = "New%20York%2F%C3%A9"
  ∧ JS.encodeURIComponent "北京" = "%E5%8C%97%E4%BA%AC".
Proof. repeat split. Qed.

Example JSON_stringify_sample :
  JS.JSON_stringify [("error", JS.JString "a\b"); ("status", JS.JNumber (JS.Num 404))]
  = "{" +:+ JS.dquote +:+ "error" +:+ JS.dquote +:+ ":" +:+ JS.dquote +:+ "a\\b"
    +:+ JS.dquote +:+ "," +:+ JS.dquote +:+ "status" +:+ JS.dquote +:+ ":404}".
Proof. reflexivity. Qed.

Example Headers_get_samples :
  Headers.get [("cf-connecting-ip", "203.0.113.7"); ("Accept", "a"); ("accept", "b")]
    "CF-Connecting-IP" = Some "203.0.113.7"
  ∧ Headers.get [("Accept", "a"); ("accept", "b")] "Accept" = Some "a, b"
  ∧ Headers.get [("Accept", "a")] "Origin" = None.
Proof. repeat split. Qed.

Example fullKey_sample : fullKey (offline 125000) "203.0.113.7" = "rate_limit:203.0.113.7:2".
Proof. reflexivity. Qed.

(** ** Decimal rendering and [parseInt] *)

Lemma digits_pretty_N_go (x : N) :
  ∃ p : Z, ∀ s acc,
    (0 < x)%N →
    JS.digits (pretty_N_go x s) acc = JS.digits s (Some (default 0 acc * p + Z.of_N x)).
Proof.
  induction (N.lt_wf_0 x) as [x _ IH].
  destruct (decide (x `div` 10 = 0)%N) as [Hz | Hnz].
  - exists 10. intros s acc Hx.
    rewrite pretty_N_go_step by done. rewrite Hz, pretty_N_go_0.
    assert (Hlt : (x < 10)%N) by (apply N.div_small_iff in Hz; lia).
    rewrite (N.mod_small x 10) by done.
    assert (Hd : JS.digit (pretty_N_char x) = Some (Z.of_N x)).
    { destruct x as [|p]; [lia|].
      do 4 (destruct p as [p|p|]; try lia; try reflexivity). }
    simpl. rewrite Hd. f_equal. f_equal. lia.
  - assert (Hpos : (0 < x)%N) by (destruct x; [by destruct Hnz | lia]).
    destruct (IH (x `div` 10)%N) as [p Hp].
    { apply N.div_lt; lia. }
    exists (10 * p). intros s acc Hx.
    rewrite pretty_N_go_step by done.
    rewrite Hp by (by apply N.neq_0_lt_0).
    assert (Hm : (x `mod` 10 < 10)%N) by (apply N.mod_lt; lia).
    assert (Hd : JS.digit (pretty_N_char (x `mod` 10)) = Some (Z.of_N (x `mod` 10))).
    { destruct (x `mod` 10)%N as [|q]; [reflexivity|].
      do 4 (destruct q as [q|q|]; try lia; try reflexivity). }
    simpl. rewrite Hd. f_equal. f_equal. simpl.
    rewrite (N.div_mod x 10) at 3 by lia. lia.
Qed.

Lemma pretty_N_go_head (x : N) (s : string) :
  (0 < x)%N →
  ∃ c r, pretty_N_go x s = String c r ∧ 48 ≤ JS.code c ≤ 57.
Proof.
  revert s. induction (N.lt_wf_0 x) as [x _ IH]. intros s Hx.
  rewrite pretty_N_go_step by done.
  destruct (decide (x `div` 10 = 0)%N) as [Hz | Hnz].
  - rewrite Hz, pretty_N_go_0. eexists _, _. split; [reflexivity|].
    assert (Hm : (x `mod` 10 < 10)%N) by (apply N.mod_lt; lia).
    destruct (x `mod` 10)%N as [|q]; [by vm_compute|].
    do 4 (destruct q as [q|q|]; try lia; try by vm_compute).
  - apply IH; [apply N.div_lt; lia | by apply N.neq_0_lt_0].
Qed.

Lemma skipWhiteSpace_ascii (c : ascii) (r : string) :
  JS.ws1 (JS.code c) = false → JS.code c < 128 →
  JS.skipWhiteSpace (String c r) = String c r.
Proof.
  intros Hws Hc. simpl. rewrite Hws.
  destruct r as [|b [|d r]]; try reflexivity.
  - unfold JS.ws2. destruct (JS.code c =? 194) eqn:E; [lia | reflexivity].
  - unfold JS.ws2, JS.ws3.
    destruct (JS.code c =? 194) eqn:E1; [lia|].
    destruct (JS.code c =? 225) eqn:E2; [lia|].
    destruct (JS.code c =? 226) eqn:E3; [lia|].
    destruct (JS.code c =? 227) eqn:E4; [lia|].
    destruct (JS.code c =? 239) eqn:E5; [lia|].
    reflexivity.
Qed.

Lemma parseInt_unsigned (c : ascii) (r : string) :
  48 ≤ JS.code c ≤ 57 →
  JS.parseInt (String c r)
  = match JS.digits (String c r) None with Some m => JS.Num (1 * m) | None => JS.NaN end.
Proof.
  intros Hc. unfold JS.parseInt.
  rewrite skipWhiteSpace_ascii by (unfold JS.ws1; lia).
  assert (JS.code c ≠ 45 ∧ JS.code c ≠ 43) as [H1 H2] by lia.
  destruct c as [[] [] [] [] [] [] [] []]; try reflexivity;
    by (destruct H1 || destruct H2).
Qed.

Lemma parseInt_negative (s : string) :
  JS.parseInt (String "-" s)
  = match JS.digits s None with Some m => JS.Num (-1 * m) | None => JS.NaN end.
Proof.
  unfold JS.parseInt.
  rewrite skipWhiteSpace_ascii by (by vm_compute). reflexivity.
Qed.

(** [parseInt(String(z), 10)] is [z]. *)
Lemma parseInt_ToString (z : Z) : JS.parseInt (JS.ToString (JS.Num z)) = JS.Num z.
Proof.
  assert (Hdig : ∀ p, ∃ c r, pretty (N.pos p) = String c r ∧ 48 ≤ JS.code c ≤ 57
                       ∧ JS.digits (String c r) None = Some (Z.pos p)).
  { intros p. unfold pretty, pretty_N. rewrite decide_False by done.
    destruct (pretty_N_go_head (N.pos p) EmptyString) as (c & r & Hgo & Hc); [lia|].
    destruct (digits_pretty_N_go (N.pos p)) as [q Hq].
    specialize (Hq EmptyString None). rewrite Hgo in Hq.
    exists c, r. repeat split; try done; try lia.
    rewrite Hq by lia. simpl. f_equal; lia. }
  destruct z as [|p|p]; [reflexivity | |].
  - destruct (Hdig p) as (c & r & Hp & Hc & Hd).
    change (JS.ToString (JS.Num (Z.pos p))) with (pretty (N.pos p)). rewrite Hp.
    rewrite parseInt_unsigned, Hd by done. f_equal; lia.
  - destruct (Hdig p) as (c & r & Hp & Hc & Hd).
    change (JS.ToString (JS.Num (Z.neg p))) with (String "-" (pretty (N.pos p))).
    rewrite Hp, parseInt_negative, Hd. f_equal; lia.
Qed.

Lemma ToString_inj (z z' : Z) :
  JS.ToString (JS.Num z) = JS.ToString (JS.Num z') → z = z'.
Proof. simpl. apply pretty_Z_inj. Qed.

(** ** The rate limiter, one call *)

Lemma readCount_ToString (z : Z) : readCount (Some (JS.ToString (JS.Num z))) = JS.Num z.
Proof.
  pose proof (parseInt_ToString z) as Hp. unfold readCount.
  destruct (JS.ToString (JS.Num z)); [discriminate Hp | exact Hp].
Qed.

Lemma checkRateLimit_run (L : Z) (P : Platform) (ip : string) (kv : gmap string KVEntry) :
  checkRateLimit L P ip kv
  = let count := readCount (KV_value P kv (fullKey P ip)) in
    if JS.ge count (JS.Num L) then
      {| outcome := Returned {| allowed := false; remaining := JS.Num 0 |};
         store := kv;
         events := [KVGet (fullKey P ip)] |}
    else
      {| outcome := Returned {| allowed := true;
                                remaining := JS.sub (JS.sub (JS.Num L) count) (JS.Num 1) |};
         store := <[fullKey P ip :=
                      {| value := JS.ToString (JS.add count (JS.Num 1));
                         expiration := now P + RATE_LIMIT_WINDOW |}]> kv;
         events := [KVGet (fullKey P ip);
                    KVPut (fullKey P ip) (JS.ToString (JS.add count (JS.Num 1)))
                          RATE_LIMIT_WINDOW] |}.
Proof.
  unfold checkRateLimit, bind, kv_get, kv_put, ret. simpl.
  destruct (JS.ge _ _); reflexivity.
Qed.

Lemma fullKey_window (P P' : Platform) (ip : string) :
  windowKey P = windowKey P' → fullKey P ip = fullKey P' ip.
Proof. unfold fullKey. by intros ->. Qed.

(** An entry written in a window outlives the window. *)
Lemma window_outlived (P P' : Platform) :
  windowKey P = windowKey P' → now P' < now P + RATE_LIMIT_WINDOW.
Proof.
  unfold windowKey, RATE_LIMIT_WINDOW. intros H.
  pose proof (Z.div_mod (now P) 60 ltac:(lia)).
  pose proof (Z.div_mod (now P') 60 ltac:(lia)).
  pose proof (Z.mod_pos_bound (now P) 60 ltac:(lia)).
  pose proof (Z.mod_pos_bound (now P') 60 ltac:(lia)).
  lia.
Qed.

(** After an allowed call every read in the same window sees the count it
    wrote. *)
Lemma read_after_write (P P' : Platform) (ip : string) (kv : gmap string KVEntry) (k : Z) :
  windowKey P = windowKey P' →
  readCount
    (KV_value P'
       (<[fullKey P ip := {| value := JS.ToString (JS.Num k);
                             expiration := now P + RATE_LIMIT_WINDOW |}]> kv)
       (fullKey P' ip))
  = JS.Num k.
Proof.
  intros Hw. unfold KV_value.
  rewrite <- (fullKey_window P P' ip Hw), lookup_insert_eq. simpl.
  pose proof (window_outlived P P' Hw).
  destruct (Z.ltb_spec (now P') (now P + RATE_LIMIT_WINDOW)); [|lia].
  apply readCount_ToString.
Qed.

(** ** Sequences of calls in one window *)

Section OneWindow.

Variable L : Z.
Variable ip : string.
Variable w : Z.

Lemma seq_from_count (calls : list Platform) :
  Forall (λ P, windowKey P = w) calls →
  ∀ (k : Z) (kv : gmap string KVEntry) (i : nat) (r : Run RateDecision),
    (∀ P, windowKey P = w → readCount (KV_value P kv (fullKey P ip)) = JS.Num k) →
    checkRateLimit_seq L (map (λ P, (P, ip)) calls) kv !! i = Some r →
    outcome r = Returned (decisionAt L (k + Z.of_nat i)).
Proof.
  induction 1 as [|P calls HP _ IH]; intros k kv i r Hk Hi; [done|].
  simpl in Hi. rewrite checkRateLimit_run in Hi. simpl in Hi.
  rewrite (Hk P HP) in Hi. unfold JS.ge in Hi. unfold decisionAt.
  destruct (Z.geb_spec k L) as [Hge | Hlt].
  - destruct i as [|i]; simpl in Hi.
    + injection Hi as <-. simpl.
      destruct (Z.ltb_spec (k + Z.of_nat 0) L); [lia | done].
    + apply (IH k) in Hi; [|done]. rewrite Hi. unfold decisionAt.
      destruct (Z.ltb_spec (k + Z.of_nat i) L), (Z.ltb_spec (k + Z.of_nat (S i)) L); try lia; done.
  - destruct i as [|i]; simpl in Hi.
    + injection Hi as <-. simpl.
      destruct (Z.ltb_spec (k + Z.of_nat 0) L); [|lia].
      do 3 f_equal. lia.
    + apply (IH (k + 1)) in Hi.
      * rewrite Hi. unfold decisionAt. replace (k + 1 + Z.of_nat i) with (k + Z.of_nat (S i)) by lia. done.
      * intros P' HP'. apply read_after_write. congruence.
Qed.

Lemma seq_length (calls : list (Platform * string)) (kv : gmap string KVEntry) :
  length (checkRateLimit_seq L calls kv) = length calls.
Proof.
  revert kv. induction calls as [|[P i] calls IH]; intros kv; simpl; [done|].
  by rewrite IH.
Qed.

End OneWindow.

(** C1.  Sequential calls for one IP, all inside one window and starting
    from a store in which the counter key is absent: for 1 <= N <= LIMIT the
    N-th call is allowed with remaining = LIMIT - N, and call number
    LIMIT + 1 is denied with remaining = 0. *)
Theorem C1_nth_call_in_window
    (L : Z) (ip : string) (w : Z) (calls : list Platform)
    (kv : gmap string KVEntry) (N : nat) :
  Forall (λ P, windowKey P = w) calls →
  Forall (λ P, kv !! fullKey P ip = None) calls →
  (1 ≤ N ≤ length calls)%nat →
  let rs := checkRateLimit_seq L (map (λ P, (P, ip)) calls) kv in
  (Z.of_nat N ≤ L →
   outcome <$> rs !! (N - 1)%nat
   = Some (Returned {| allowed := true; remaining := JS.Num (L - Z.of_nat N) |}))
  ∧ (Z.of_nat N = L + 1 →
     outcome <$> rs !! (N - 1)%nat
     = Some (Returned {| allowed := false; remaining := JS.Num 0 |})).
Proof.
  intros Hw Habs HN rs.
  assert (Hzero : ∀ P, windowKey P = w →
                       readCount (KV_value P kv (fullKey P ip)) = JS.Num 0).
  { intros P HP. destruct calls as [|P0 calls]; [simpl in HN; lia|].
    apply Forall_cons in Hw as [Hw0 _]. apply Forall_cons in Habs as [Habs0 _].
    unfold KV_value. rewrite (fullKey_window P P0 ip) by congruence.
    by rewrite Habs0. }
  destruct (lookup_lt_is_Some_2 rs (N - 1)%nat) as [r Hr].
  { unfold rs. rewrite seq_length, length_map. lia. }
  rewrite Hr. simpl.
  pose proof (seq_from_count L ip w calls Hw 0 kv _ r Hzero Hr) as Hout.
  rewrite Hout. unfold decisionAt.
  split; intros HL.
  - destruct (Z.ltb_spec (0 + Z.of_nat (N - 1)) L); [|lia].
    do 4 f_equal. lia.
  - destruct (Z.ltb_spec (0 + Z.of_nat (N - 1)) L); [lia | done].
Qed.

Lemma C1_witness :
  let rs := checkRateLimit_seq 10 (map (λ P, (P, "203.0.113.7")) third_minute) ∅ in
  outcome <$> rs !! 2%nat
  = Some (Returned {| allowed := true; remaining := JS.Num 7 |})
  ∧ outcome <$> rs !! 10%nat
    = Some (Returned {| allowed := false; remaining := JS.Num 0 |}).
Proof.
  split.
  - apply (proj1 (C1_nth_call_in_window 10 "203.0.113.7" 2 third_minute ∅ 3
                    ltac:(repeat constructor)
                    ltac:(apply Forall_forall; intros; apply lookup_empty)
                    ltac:(simpl; lia))).
    lia.
  - apply (proj2 (C1_nth_call_in_window 10 "203.0.113.7" 2 third_minute ∅ 11
                    ltac:(repeat constructor)
                    ltac:(apply Forall_forall; intros; apply lookup_empty)
                    ltac:(simpl; lia))).
    lia.
Defined.

(** C3.  Calls that each find a stored count >= LIMIT under their key are
    denied with remaining = 0, leave the store as it was and write nothing,
    however many of them follow one another. *)
Theorem C3_denied_calls_write_nothing
    (L : Z) (calls : list (Platform * string)) (kv : gmap string KVEntry) :
  Forall (λ c, ∃ n, readCount (KV_value c.1 kv (fullKey c.1 c.2)) = JS.Num n ∧ L ≤ n) calls →
  Forall (λ r, outcome r = Returned {| allowed := false; remaining := JS.Num 0 |}
               ∧ store r = kv
               ∧ ∀ key val ttl, KVPut key val ttl ∉ events r)
         (checkRateLimit_seq L calls kv).
Proof.
  induction 1 as [|[P ip] calls (n & Hn & HL) _ IH]; simpl; [constructor|].
  simpl in Hn. rewrite checkRateLimit_run. simpl. rewrite Hn. unfold JS.ge.
  destruct (Z.geb_spec n L); [|lia]. simpl.
  constructor; [|exact IH].
  repeat split. intros key val ttl Hin.
  apply list_elem_of_singleton in Hin. discriminate.
Qed.

Lemma C3_witness :
  Forall (λ r, outcome r = Returned {| allowed := false; remaining := JS.Num 0 |}
               ∧ store r = full_bucket
               ∧ ∀ key val ttl, KVPut key val ttl ∉ events r)
         (checkRateLimit_seq 10
            [(offline 125000, "203.0.113.7"); (offline 126000, "203.0.113.7");
             (offline 179999, "203.0.113.7")]
            full_bucket).
Proof.
  apply C3_denied_calls_write_nothing.
  repeat (constructor; [exists 10; split; [by vm_compute | lia] |]).
  constructor.
Defined.

(** ** Keys *)

Lemma colon_free_pretty_N_go (x : N) (s : string) :
  colon_free s = true → colon_free (pretty_N_go x s) = true.
Proof.
  revert s. induction (N.lt_wf_0 x) as [x _ IH]. intros s Hs.
  destruct (decide (0 < x)%N) as [Hx | Hx].
  - rewrite pretty_N_go_step by done. apply IH; [apply N.div_lt; lia|].
    simpl. rewrite Hs, andb_true_r.
    unfold pretty_N_char. by repeat case_match.
  - assert (x = 0%N) as -> by lia. by rewrite pretty_N_go_0.
Qed.

Lemma colon_free_ToString (z : Z) : colon_free (JS.ToString (JS.Num z)) = true.
Proof.
  assert (Hp : ∀ p, colon_free (pretty (N.pos p)) = true).
  { intros p. unfold pretty, pretty_N. rewrite decide_False by done.
    by apply colon_free_pretty_N_go. }
  destruct z as [|p|p]; [done | apply Hp |].
  change (JS.ToString (JS.Num (Z.neg p))) with (String "-" (pretty (N.pos p))).
  simpl. apply Hp.
Qed.

Lemma colon_free_app (a b : string) : colon_free (a +:+ String ":" b) = false.
Proof. induction a as [|c a IH]; [done|]. simpl. rewrite IH. apply andb_false_r. Qed.

Lemma split_at_last_colon (a b d d' : string) :
  colon_free d = true → colon_free d' = true →
  a +:+ String ":" d = b +:+ String ":" d' → a = b ∧ d = d'.
Proof.
  intros Hd Hd'. revert b.
  induction a as [|c a IH]; intros [|c' b] Heq.
  - by injection Heq.
  - injection Heq as _ ->. by rewrite colon_free_app in Hd.
  - injection Heq as _ <-. by rewrite colon_free_app in Hd'.
  - injection Heq as -> Heq. destruct (IH _ Heq) as [-> ->]. done.
Qed.

(** Two calls use the same key exactly when they share the IP and the
    window. *)
Lemma fullKey_inj (P P' : Platform) (ip ip' : string) :
  fullKey P ip = fullKey P' ip' ↔ ip = ip' ∧ windowKey P = windowKey P'.
Proof.
  split; [|intros [-> Hw]; by apply fullKey_window].
  unfold fullKey. intros Heq.
  assert (Hassoc : ∀ x y, ("rate_limit:" +:+ x) +:+ ":" +:+ y
                          = "rate_limit:" +:+ (x +:+ String ":" y)) by done.
  rewrite !Hassoc in Heq. apply (inj _) in Heq.
  apply split_at_last_colon in Heq as [-> Heq]; try apply colon_free_ToString.
  split; [done | by apply ToString_inj].
Qed.

(** C4.  Whatever is stored under the key of window w, a call whose instant
    falls in window w + 1 reads another key; that key being absent, the call
    counts from 0. *)
Theorem C4_next_window_counts_from_zero
    (L : Z) (P P' : Platform) (ip : string) (kv : gmap string KVEntry) (e : KVEntry) :
  windowKey P' = windowKey P + 1 →
  kv !! fullKey P' ip = None →
  let kv' := <[fullKey P ip := e]> kv in
  fullKey P' ip ≠ fullKey P ip
  ∧ readCount (KV_value P' kv' (fullKey P' ip)) = JS.Num 0
  ∧ outcome (checkRateLimit L P' ip kv')
    = Returned (if 0 <? L then {| allowed := true; remaining := JS.Num (L - 1) |}
                else {| allowed := false; remaining := JS.Num 0 |}).
Proof.
  intros Hw Habs kv'.
  assert (Hne : fullKey P' ip ≠ fullKey P ip).
  { intros Heq. apply fullKey_inj in Heq as [_ Heq]. lia. }
  assert (Hzero : readCount (KV_value P' kv' (fullKey P' ip)) = JS.Num 0).
  { unfold KV_value, kv'. rewrite lookup_insert_ne by done. by rewrite Habs. }
  repeat split; try done.
  rewrite checkRateLimit_run. simpl. rewrite Hzero. unfold JS.ge.
  destruct (Z.geb_spec 0 L), (Z.ltb_spec 0 L); try lia; try done.
  simpl. do 3 f_equal. lia.
Qed.

Lemma C4_witness :
  let kv' := <[fullKey (offline 125000) "203.0.113.7" :=
                 {| value := "10"; expiration := 185 |}]> (∅ : gmap string KVEntry) in
  fullKey (offline 180000) "203.0.113.7" ≠ fullKey (offline 125000) "203.0.113.7"
  ∧ readCount (KV_value (offline 180000) kv' (fullKey (offline 180000) "203.0.113.7"))
    = JS.Num 0
  ∧ outcome (checkRateLimit 10 (offline 180000) "203.0.113.7" kv')
    = Returned {| allowed := true; remaining := JS.Num 9 |}.
Proof.
  exact (C4_next_window_counts_from_zero 10 (offline 125000) (offline 180000)
           "203.0.113.7" ∅ {| value := "10"; expiration := 185 |}
           eq_refl (lookup_empty _)).
Defined.

(** ** The stored counters *)

Lemma checkRateLimit_preserves_range
    (L : Z) (P : Platform) (ip : string) (kv : gmap string KVEntry) :
  map_Forall (λ _ e, counter_in_range L e) kv →
  map_Forall (λ _ e, counter_in_range L e) (store (checkRateLimit L P ip kv)).
Proof.
  intros Hkv. rewrite checkRateLimit_run. simpl.
  assert (Hc : ∃ c, readCount (KV_value P kv (fullKey P ip)) = JS.Num c ∧ 0 ≤ c ≤ L ∨
                    readCount (KV_value P kv (fullKey P ip)) = JS.Num 0 ∧ c = 0).
  { unfold KV_value. destruct (kv !! fullKey P ip) as [e|] eqn:He.
    - destruct (Hkv _ _ He) as (c & Hv & Hr & Hc).
      destruct (now P <? expiration e); [|by exists 0; right].
      exists c. left. done.
    - by exists 0; right. }
  destruct Hc as [c Hc].
  destruct (JS.ge _ _) eqn:Hge; simpl; [done|].
  apply map_Forall_insert_2; [|done].
  destruct Hc as [[Hr Hc] | [Hr ->]]; rewrite Hr in *; simpl in Hge.
  - exists (c + 1). simpl. split; [done|]. split; [apply readCount_ToString | lia].
  - exists 1. simpl. split; [done|]. split; [done | lia].
Qed.

(** C8.  From the empty store, after any sequence of sequential calls
    (any IPs, any instants) every stored counter is an integer count with
    0 <= count <= LIMIT. *)
Theorem C8_counters_stay_in_range (L : Z) (calls : list (Platform * string)) :
  Forall (λ r, ∀ key e, store r !! key = Some e →
                 ∃ c : Z, value e = JS.ToString (JS.Num c)
                          ∧ readCount (Some (value e)) = JS.Num c
                          ∧ 0 ≤ c ≤ L)
         (checkRateLimit_seq L calls ∅).
Proof.
  cut (∀ kv, map_Forall (λ _ e, counter_in_range L e) kv →
             Forall (λ r, map_Forall (λ _ e, counter_in_range L e) (store r))
                    (checkRateLimit_seq L calls kv)).
  { intros H. apply (H ∅), map_Forall_empty. }
  induction calls as [|[P ip] calls IH]; intros kv Hkv; simpl; [constructor|].
  pose proof (checkRateLimit_preserves_range L P ip kv Hkv).
  constructor; [done | by apply IH].
Qed.

(** ** The read step *)

(** C2, as stated, fails: a stored value without a leading integer reads as
    [NaN], not as 0, and the call answers remaining = NaN where a count of 0
    gives LIMIT - 1. *)
Lemma C2_unparsable_is_not_zero :
  KV_value (offline 125000) garbled (fullKey (offline 125000) "203.0.113.7") = Some "abc"
  ∧ JS.parseInt "abc" = JS.NaN
  ∧ readCount (Some "abc") ≠ JS.Num 0
  ∧ outcome (checkRateLimit 10 (offline 125000) "203.0.113.7" garbled)
    = Returned {| allowed := true; remaining := JS.NaN |}
  ∧ outcome (checkRateLimit 10 (offline 125000) "203.0.113.7" garbled)
    ≠ Returned {| allowed := true; remaining := JS.Num 9 |}.
Proof. repeat split; try by vm_compute. Qed.

(** C2, amended.  The read step takes a missing value and an empty one as
    count 0.  A value that is not empty and does not parse reads as [NaN]:
    [NaN >= LIMIT] is false, so the call is allowed, answers
    remaining = NaN and stores "NaN". *)
Theorem C2_read_step
    (L : Z) (P : Platform) (ip : string) (kv : gmap string KVEntry) (v : string) :
  KV_value P kv (fullKey P ip) = Some v →
  v ≠ EmptyString →
  JS.parseInt v = JS.NaN →
  readCount None = JS.Num 0
  ∧ readCount (Some EmptyString) = JS.Num 0
  ∧ readCount (Some v) = JS.NaN
  ∧ JS.ge (readCount (Some v)) (JS.Num L) = false
  ∧ outcome (checkRateLimit L P ip kv)
    = Returned {| allowed := true; remaining := JS.NaN |}
  ∧ store (checkRateLimit L P ip kv) !! fullKey P ip
    = Some {| value := "NaN"; expiration := now P + RATE_LIMIT_WINDOW |}.
Proof.
  intros Hv Hne Hnan.
  assert (Hr : readCount (Some v) = JS.NaN).
  { unfold readCount. destruct v; [done | exact Hnan]. }
  rewrite checkRateLimit_run, Hv, Hr. simpl.
  repeat split. apply lookup_insert_eq.
Qed.

Lemma C2_witness :
  readCount None = JS.Num 0
  ∧ readCount (Some EmptyString) = JS.Num 0
  ∧ readCount (Some "abc") = JS.NaN
  ∧ JS.ge (readCount (Some "abc")) (JS.Num 10) = false
  ∧ outcome (checkRateLimit 10 (offline 125000) "203.0.113.7" garbled)
    = Returned {| allowed := true; remaining := JS.NaN |}
  ∧ store (checkRateLimit 10 (offline 125000) "203.0.113.7" garbled)
      !! fullKey (offline 125000) "203.0.113.7"
    = Some {| value := "NaN"; expiration := now (offline 125000) + RATE_LIMIT_WINDOW |}.
Proof.
  apply (C2_read_step 10 (offline 125000) "203.0.113.7" garbled "abc");
    [by vm_compute | discriminate | reflexivity].
Defined.

(** ** CORS headers *)

Lemma includes_allowedOrigins (o : string) :
  includes allowedOrigins o = bool_decide (o ∈ loopback_origins).
Proof.
  apply eq_true_iff_eq. rewrite bool_decide_eq_true.
  unfold includes. rewrite existsb_exists. split.
  - intros (x & Hin & Heq). apply String.eqb_eq in Heq as <-.
    apply list_elem_of_In. vm_compute in Hin |- *. tauto.
  - intros Hin. exists o. split; [|apply String.eqb_refl].
    apply list_elem_of_In in Hin. vm_compute in Hin |- *. tauto.
Qed.

(** C7.  Access-Control-Allow-Origin is the request's origin when that is
    one of the eight loopback origins and "*" for any other origin and for
    no origin; the methods, headers and max-age entries are fixed. *)
Theorem C7_cors_headers (origin : option string) :
  getCorsHeaders origin
  = [ ("Access-Control-Allow-Origin",
       match origin with
       | Some o => if bool_decide (o ∈ loopback_origins) then o else "*"
       | None => "*"
       end);
      ("Access-Control-Allow-Methods", "GET, POST, OPTIONS");
      ("Access-Control-Allow-Headers", "Content-Type, Authorization");
      ("Access-Control-Max-Age", "86400") ].
Proof.
  destruct origin as [o|]; [|reflexivity].
  unfold getCorsHeaders. rewrite includes_allowedOrigins.
  destruct o; [by vm_compute | reflexivity].
Qed.

(** ** The handlers *)

(** C6, as stated, fails on [src/index.ts]: it has no branch for OPTIONS, so
    a preflight request reads and writes the KV namespace, calls the
    upstream and is answered 200 with the weather payload. *)
Lemma C6_index_ts_serves_preflight :
  Request.method preflight = "OPTIONS"
  ∧ IndexTs.fetch (sunny 125000) preflight {| IndexTs.WEATHER_API_KEY := "k" |} ∅
    = {| outcome :=
           Returned {| Response.status := 200;
                       Response.headers :=
                         [ ("Content-Type", "application/json");
                           ("X-RateLimit-Limit", "10");
                           ("X-RateLimit-Remaining", "9") ];
                       Response.body := Some "{}" |};
         store := {[ "rate_limit:unknown:2" := {| value := "1"; expiration := 185 |} ]};
         events :=
           [ KVGet "abc";
             KVGet "rate_limit:unknown:2";
             KVPut "rate_limit:unknown:2" "1" 60;
             UpstreamFetch "https://api.openweathermap.org/data/2.5/weather?q=Beijing&appid=k&units=metric&lang=zh_cn" ] |}.
Proof. split; [reflexivity|]. by vm_compute. Qed.

(** C6, amended.  In both handlers of [unnamed/part_000] a request with
    method OPTIONS is answered 204 with no body and the CORS headers, and
    nothing else happens: no KV read or write, no credential lookup, no
    upstream call.  The handler of [src/index.ts] does not look at the
    method. *)
Theorem C6_preflight
    (P : Platform) (request : Request.t) (kv : gmap string KVEntry) :
  Request.method request = "OPTIONS" →
  let origin := Headers.get (Request.headers request) "Origin" in
  let no_content :=
    {| outcome := Returned {| Response.status := 204;
                              Response.headers := getCorsHeaders origin;
                              Response.body := None |};
       store := kv;
       events := [] |} in
  (∀ env, PartA.fetch P request env kv = no_content)
  ∧ (∀ env, PartB.fetch P request env kv = no_content)
  ∧ (∀ env m, IndexTs.fetch P (with_method m request) env kv
              = IndexTs.fetch P request env kv).
Proof.
  intros Hm origin no_content.
  split; [|split].
  - intros env. unfold PartA.fetch. rewrite Hm. reflexivity.
  - intros env. unfold PartB.fetch. rewrite Hm. reflexivity.
  - reflexivity.
Qed.

Lemma C6_witness :
  let no_content :=
    {| outcome := Returned {| Response.status := 204;
                              Response.headers :=
                                getCorsHeaders (Some "http://localhost:5173");
                              Response.body := None |};
       store := ∅;
       events := [] |} in
  (∀ env, PartA.fetch (sunny 125000) preflight env ∅ = no_content)
  ∧ (∀ env, PartB.fetch (sunny 125000) preflight env ∅ = no_content)
  ∧ (∀ env m, IndexTs.fetch (sunny 125000) (with_method m preflight) env ∅
              = IndexTs.fetch (sunny 125000) preflight env ∅).
Proof. exact (C6_preflight (sunny 125000) preflight ∅ eq_refl). Defined.

(** ** Upstream calls *)

Ltac run_handler :=
  unfold try_catch, bind, ret, throw, secret_get, kv_get, global_fetch, resp_json.

Ltac hsimpl :=
  cbn -[checkRateLimit getCorsHeaders jsonHeaders apiUrl Response.new JS.JSON_stringify
        JS.ToString JS.String_of_thrown JS.or_else String.append].

(** From [UpstreamFetch url ∈ events], the call the run made (none in the
    branches that return before the upstream). *)
Ltac fetched Hin :=
  first
    [ apply elem_of_nil in Hin; destruct Hin
    | apply elem_of_cons in Hin; destruct Hin as [Hin | Hin];
      [ first [ discriminate Hin | injection Hin as -> ] | fetched Hin ] ].

Section Calls.

Variable P : Platform.
Variable request : Request.t.
Variable kv : gmap string KVEntry.

Let ip := getClientIP request.

Lemma IndexTs_fetch_url (env : IndexTs.Env) (url : string) :
  UpstreamFetch url ∈ events (IndexTs.fetch P request env kv) →
  url = apiUrl (city_of request) (IndexTs.WEATHER_API_KEY env).
Proof.
  unfold IndexTs.fetch. run_handler. hsimpl.
  rewrite checkRateLimit_run. hsimpl.
  destruct (JS.ge _ _); hsimpl; [intros Hin; fetched Hin|].
  destruct (upstream P (apiUrl _ _)) as [e | resp]; hsimpl.
  { intros Hin. by fetched Hin. }
  destruct (Upstream.ok resp); hsimpl.
  - destruct (Upstream.json resp); hsimpl; intros Hin; by fetched Hin.
  - intros Hin. by fetched Hin.
Qed.

Lemma IndexTs_upstream_failure (env : IndexTs.Env) (url : string) (resp : Upstream.t) :
  upstream P url = inr resp →
  Upstream.ok resp = false →
  UpstreamFetch url ∈ events (IndexTs.fetch P request env kv) →
  outcome (IndexTs.fetch P request env kv)
  = Returned
      (Response.new
         (Some ("Weather API Error: " +:+ JS.ToString (JS.Num (Upstream.status resp))))
         502 []).
Proof.
  intros Hup Hok. unfold IndexTs.fetch. run_handler. hsimpl.
  rewrite checkRateLimit_run. hsimpl.
  destruct (JS.ge _ _); hsimpl; [intros Hin; fetched Hin|].
  destruct (upstream P (apiUrl _ _)) as [e | resp'] eqn:Hu; hsimpl.
  { intros Hin. fetched Hin. congruence. }
  destruct (Upstream.ok resp') eqn:Hok'; hsimpl.
  - destruct (Upstream.json resp'); hsimpl; intros Hin; fetched Hin; congruence.
  - intros Hin. fetched Hin. congruence.
Qed.

Lemma IndexTs_reaches_upstream (env : IndexTs.Env) :
  JS.ge (readCount (KV_value P kv (fullKey P ip))) (JS.Num IndexTs.RATE_LIMIT) = false →
  UpstreamFetch (apiUrl (city_of request) (IndexTs.WEATHER_API_KEY env))
  ∈ events (IndexTs.fetch P request env kv).
Proof.
  intros Hpass. unfold IndexTs.fetch. run_handler. hsimpl.
  rewrite checkRateLimit_run. hsimpl. fold ip. rewrite Hpass. hsimpl.
  destruct (upstream P (apiUrl _ _)) as [e | resp]; hsimpl.
  { set_solver. }
  destruct (Upstream.ok resp); hsimpl.
  - destruct (Upstream.json resp); hsimpl; set_solver.
  - set_solver.
Qed.

Lemma PartA_fetch_url (env : PartA.Env) (url : string) :
  UpstreamFetch url ∈ events (PartA.fetch P request env kv) →
  ∃ key, url = apiUrl (city_of request) key
         ∧ (PartA.WEATHER_API_KEY env = PartA.Plain key
            ∨ PartA.WEATHER_API_KEY env = PartA.SecretsStore (inr key)).
Proof.
  unfold PartA.fetch, PartA.resolveApiKey.
  destruct (String.eqb _ "OPTIONS"); [by intros ?%elem_of_nil|].
  destruct (negb _); [by intros ?%elem_of_nil|].
  run_handler.
  destruct (PartA.WEATHER_API_KEY env) as [|s|[e|s]|t]; hsimpl;
    try (intros Hin; by fetched Hin).
  - destruct (JS.truthy s); hsimpl; [|intros Hin; by fetched Hin].
    destruct (upstream P (apiUrl _ _)) as [e | resp]; hsimpl.
    { intros Hin. fetched Hin. eauto. }
    destruct (Upstream.ok resp); hsimpl.
    + destruct (Upstream.json resp); hsimpl; intros Hin; fetched Hin; eauto.
    + intros Hin. fetched Hin. eauto.
  - destruct (JS.truthy s); hsimpl; [|intros Hin; by fetched Hin].
    destruct (upstream P (apiUrl _ _)) as [e | resp]; hsimpl.
    { intros Hin. fetched Hin. eauto. }
    destruct (Upstream.ok resp); hsimpl.
    + destruct (Upstream.json resp); hsimpl; intros Hin; fetched Hin; eauto.
    + intros Hin. fetched Hin. eauto.
Qed.

Lemma PartA_upstream_failure (env : PartA.Env) (url : string) (resp : Upstream.t) :
  upstream P url = inr resp →
  Upstream.ok resp = false →
  UpstreamFetch url ∈ events (PartA.fetch P request env kv) →
  outcome (PartA.fetch P request env kv) = Returned (upstream_error (Headers.get (Request.headers request) "Origin") resp).
Proof.
  intros Hup Hok. unfold upstream_error. unfold PartA.fetch, PartA.resolveApiKey.
  destruct (String.eqb _ "OPTIONS"); [by intros ?%elem_of_nil|].
  destruct (negb _); [by intros ?%elem_of_nil|].
  run_handler.
  destruct (PartA.WEATHER_API_KEY env) as [|s|[e|s]|t]; hsimpl;
    try (intros Hin; by fetched Hin).
  - destruct (JS.truthy s); hsimpl; [|intros Hin; by fetched Hin].
    destruct (upstream P (apiUrl _ _)) as [e | resp'] eqn:Hu; hsimpl.
    { intros Hin. fetched Hin. congruence. }
    destruct (Upstream.ok resp') eqn:Hok'; hsimpl.
    + destruct (Upstream.json resp'); hsimpl; intros Hin; fetched Hin; congruence.
    + intros Hin. fetched Hin. congruence.
  - destruct (JS.truthy s); hsimpl; [|intros Hin; by fetched Hin].
    destruct (upstream P (apiUrl _ _)) as [e | resp'] eqn:Hu; hsimpl.
    { intros Hin. fetched Hin. congruence. }
    destruct (Upstream.ok resp') eqn:Hok'; hsimpl.
    + destruct (Upstream.json resp'); hsimpl; intros Hin; fetched Hin; congruence.
    + intros Hin. fetched Hin. congruence.
Qed.

Lemma PartA_reaches_upstream (env : PartA.Env) (key : string) :
  String.eqb (Request.method request) "OPTIONS" = false →
  URL.pathname (Request.url request) = "/" →
  PartA.WEATHER_API_KEY env = PartA.Plain key
  ∨ PartA.WEATHER_API_KEY env = PartA.SecretsStore (inr key) →
  key ≠ EmptyString →
  UpstreamFetch (apiUrl (city_of request) key) ∈ events (PartA.fetch P request env kv).
Proof.
  intros Hm Hp Hkey Hne. unfold PartA.fetch, PartA.resolveApiKey.
  rewrite Hm, Hp. run_handler.
  assert (Ht : JS.truthy key = true) by (by destruct key).
  destruct Hkey as [-> | ->]; hsimpl; rewrite Ht; hsimpl.
  - destruct (upstream P (apiUrl _ _)) as [e | resp]; hsimpl; [set_solver|].
    destruct (Upstream.ok resp); hsimpl; [|set_solver].
    destruct (Upstream.json resp); hsimpl; set_solver.
  - destruct (upstream P (apiUrl _ _)) as [e | resp]; hsimpl; [set_solver|].
    destruct (Upstream.ok resp); hsimpl; [|set_solver].
    destruct (Upstream.json resp); hsimpl; set_solver.
Qed.

Lemma PartB_fetch_url (env : PartB.Env) (url : string) :
  UpstreamFetch url ∈ events (PartB.fetch P request env kv) →
  ∃ key, url = apiUrl (city_of request) key ∧ PartB.WEATHER_API_KEY env = inr key.
Proof.
  unfold PartB.fetch, PartB.resolveApiKey.
  destruct (String.eqb _ "OPTIONS"); [by intros ?%elem_of_nil|].
  run_handler. hsimpl.
  destruct (PartB.WEATHER_API_KEY env) as [e | apiKey]; hsimpl.
  { intros Hin. fetched Hin. }
  destruct (JS.truthy apiKey); hsimpl; [|intros Hin; fetched Hin].
  rewrite checkRateLimit_run. hsimpl.
  destruct (JS.ge _ _); hsimpl; [intros Hin; fetched Hin|].
  destruct (upstream P (apiUrl _ _)) as [e | resp]; hsimpl.
  { intros Hin. fetched Hin. eauto. }
  destruct (Upstream.ok resp); hsimpl.
  - destruct (Upstream.json resp); hsimpl; intros Hin; fetched Hin; eauto.
  - intros Hin. fetched Hin. eauto.
Qed.

Lemma PartB_upstream_failure (env : PartB.Env) (url : string) (resp : Upstream.t) :
  upstream P url = inr resp →
  Upstream.ok resp = false →
  UpstreamFetch url ∈ events (PartB.fetch P request env kv) →
  outcome (PartB.fetch P request env kv) = Returned (upstream_error (Headers.get (Request.headers request) "Origin") resp).
Proof.
  intros Hup Hok. unfold upstream_error. unfold PartB.fetch, PartB.resolveApiKey.
  destruct (String.eqb _ "OPTIONS"); [by intros ?%elem_of_nil|].
  run_handler. hsimpl.
  destruct (PartB.WEATHER_API_KEY env) as [e | apiKey]; hsimpl.
  { intros Hin. fetched Hin. }
  destruct (JS.truthy apiKey); hsimpl; [|intros Hin; fetched Hin].
  rewrite checkRateLimit_run. hsimpl.
  destruct (JS.ge _ _); hsimpl; [intros Hin; fetched Hin|].
  destruct (upstream P (apiUrl _ _)) as [e | resp'] eqn:Hu; hsimpl.
  { intros Hin. fetched Hin. congruence. }
  destruct (Upstream.ok resp') eqn:Hok'; hsimpl.
  - destruct (Upstream.json resp'); hsimpl; intros Hin; fetched Hin; congruence.
  - intros Hin. fetched Hin. congruence.
Qed.

Lemma PartB_reaches_upstream (env : PartB.Env) (key : string) :
  String.eqb (Request.method request) "OPTIONS" = false →
  PartB.WEATHER_API_KEY env = inr key →
  key ≠ EmptyString →
  JS.ge (readCount (KV_value P kv (fullKey P ip))) (JS.Num PartB.RATE_LIMIT) = false →
  UpstreamFetch (apiUrl (city_of request) key) ∈ events (PartB.fetch P request env kv).
Proof.
  intros Hm Hkey Hne Hpass. unfold PartB.fetch, PartB.resolveApiKey.
  rewrite Hm, Hkey. run_handler. hsimpl.
  assert (Ht : JS.truthy key = true) by (by destruct key).
  rewrite Ht. hsimpl.
  rewrite checkRateLimit_run. hsimpl. fold ip. rewrite Hpass. hsimpl.
  destruct (upstream P (apiUrl _ _)) as [e | resp]; hsimpl; [set_solver|].
  destruct (Upstream.ok resp); hsimpl; [|set_solver].
  destruct (Upstream.json resp); hsimpl; set_solver.
Qed.

End Calls.

(** ** Upstream failures *)

(** C5, as stated, fails on [src/index.ts]: when the upstream answers 404
    the response is 502 with the plain text "Weather API Error: 404", which
    is not a JSON object with an [error] and a [status] field. *)
Lemma C5_index_ts_plain_text :
  let r := IndexTs.fetch upstream_404 (get_root [("city", "Atlantis")])
             {| IndexTs.WEATHER_API_KEY := "k" |} ∅ in
  UpstreamFetch (apiUrl "Atlantis" "k") ∈ events r
  ∧ upstream upstream_404 (apiUrl "Atlantis" "k")
    = inr {| Upstream.status := 404; Upstream.json := inr "{}" |}
  ∧ outcome r
    = Returned {| Response.status := 502;
                  Response.headers := [("content-type", "text/plain;charset=UTF-8")];
                  Response.body := Some "Weather API Error: 404" |}
  ∧ ∀ msg, Some "Weather API Error: 404"
           ≠ Some (JS.JSON_stringify
                     [("error", JS.JString msg); ("status", JS.JNumber (JS.Num 404))]).
Proof.
  split; [|split; [|split]].
  - vm_compute. set_solver.
  - reflexivity.
  - by vm_compute.
  - intros msg. unfold JS.JSON_stringify. discriminate.
Qed.

(** C5, amended.  When the upstream call of a request is answered with a
    status outside 200..299: both handlers of [unnamed/part_000] return 502
    with the JSON body [{"error": ..., "status": s}], [s] the upstream
    status; the handler of [src/index.ts] returns 502 with the plain text
    ["Weather API Error: " ++ s]. *)
Theorem C5_upstream_failure
    (P : Platform) (request : Request.t) (kv : gmap string KVEntry)
    (url : string) (resp : Upstream.t) :
  upstream P url = inr resp →
  Upstream.ok resp = false →
  let origin := Headers.get (Request.headers request) "Origin" in
  let bad_gateway :=
    {| Response.status := 502;
       Response.headers := getCorsHeaders origin ++ [("Content-Type", "application/json")];
       Response.body :=
         Some (JS.JSON_stringify
                 [ ("error", JS.JString "天气API请求失败");
                   ("status", JS.JNumber (JS.Num (Upstream.status resp))) ]) |} in
  (∀ env, UpstreamFetch url ∈ events (PartA.fetch P request env kv) →
          outcome (PartA.fetch P request env kv) = Returned bad_gateway)
  ∧ (∀ env, UpstreamFetch url ∈ events (PartB.fetch P request env kv) →
            outcome (PartB.fetch P request env kv) = Returned bad_gateway)
  ∧ (∀ env, UpstreamFetch url ∈ events (IndexTs.fetch P request env kv) →
            outcome (IndexTs.fetch P request env kv)
            = Returned
                {| Response.status := 502;
                   Response.headers := [("content-type", "text/plain;charset=UTF-8")];
                   Response.body :=
                     Some ("Weather API Error: "
                           +:+ JS.ToString (JS.Num (Upstream.status resp))) |}).
Proof.
  intros Hup Hok origin bad_gateway.
  assert (Hbad : upstream_error origin resp = bad_gateway) by reflexivity.
  rewrite <- Hbad. repeat split; intros env Hin.
  - by apply (PartA_upstream_failure P request kv env url).
  - by apply (PartB_upstream_failure P request kv env url).
  - by rewrite (IndexTs_upstream_failure P request kv env url resp).
Qed.

Lemma C5_witness :
  let request := get_root [("city", "Atlantis")] in
  let bad_gateway :=
    {| Response.status := 502;
       Response.headers := getCorsHeaders None ++ [("Content-Type", "application/json")];
       Response.body :=
         Some (JS.JSON_stringify
                 [ ("error", JS.JString "天气API请求失败");
                   ("status", JS.JNumber (JS.Num 404)) ]) |} in
  outcome (PartA.fetch upstream_404 request {| PartA.WEATHER_API_KEY := PartA.Plain "k" |} ∅)
  = Returned bad_gateway
  ∧ outcome (PartB.fetch upstream_404 request {| PartB.WEATHER_API_KEY := inr "k" |} ∅)
    = Returned bad_gateway.
Proof.
  pose proof (C5_upstream_failure upstream_404 (get_root [("city", "Atlantis")]) ∅
                (apiUrl "Atlantis" "k")
                {| Upstream.status := 404; Upstream.json := inr "{}" |}
                eq_refl eq_refl) as (HA & HB & _).
  split.
  - apply HA. vm_compute. set_solver.
  - apply HB. vm_compute. set_solver.
Defined.

(** ** The city *)

Lemma apiUrl_Beijing (key : string) :
  apiUrl "Beijing" key
  = "https://api.openweathermap.org/data/2.5/weather?q=Beijing&appid="
    +:+ key +:+ "&units=metric&lang=zh_cn".
Proof. reflexivity. Qed.

Lemma city_of_default (request : Request.t) :
  URL.get (URL.searchParams (Request.url request)) "city" = None
  ∨ URL.get (URL.searchParams (Request.url request)) "city" = Some EmptyString →
  city_of request = "Beijing".
Proof. unfold city_of. by intros [-> | ->]. Qed.

(** C9.  A GET request to the root path without a [city] parameter: every
    upstream call made for it asks for q=Beijing, and the call is made as
    soon as the credential resolves to a non-empty key and the limiter (where
    there is one) lets the request through. *)
Theorem C9_default_city
    (P : Platform) (request : Request.t) (kv : gmap string KVEntry) :
  Request.method request = "GET" →
  URL.pathname (Request.url request) = "/" →
  URL.get (URL.searchParams (Request.url request)) "city" = None →
  let beijing key :=
    "https://api.openweathermap.org/data/2.5/weather?q=Beijing&appid="
    +:+ key +:+ "&units=metric&lang=zh_cn" in
  let passes L :=
    JS.ge (readCount (KV_value P kv (fullKey P (getClientIP request)))) (JS.Num L) = false in
  (∀ env,
     (∀ url, UpstreamFetch url ∈ events (IndexTs.fetch P request env kv) →
             url = beijing (IndexTs.WEATHER_API_KEY env))
     ∧ (passes IndexTs.RATE_LIMIT →
        UpstreamFetch (beijing (IndexTs.WEATHER_API_KEY env))
        ∈ events (IndexTs.fetch P request env kv)))
  ∧ (∀ env,
       (∀ url, UpstreamFetch url ∈ events (PartA.fetch P request env kv) →
               ∃ key, url = beijing key)
       ∧ (∀ key, key ≠ EmptyString →
                 PartA.WEATHER_API_KEY env = PartA.Plain key
                 ∨ PartA.WEATHER_API_KEY env = PartA.SecretsStore (inr key) →
                 UpstreamFetch (beijing key) ∈ events (PartA.fetch P request env kv)))
  ∧ (∀ env,
       (∀ url, UpstreamFetch url ∈ events (PartB.fetch P request env kv) →
               ∃ key, url = beijing key)
       ∧ (∀ key, key ≠ EmptyString →
                 PartB.WEATHER_API_KEY env = inr key →
                 passes PartB.RATE_LIMIT →
                 UpstreamFetch (beijing key) ∈ events (PartB.fetch P request env kv))).
Proof.
  intros Hm Hp Hc beijing passes.
  assert (Hcity : city_of request = "Beijing") by (apply city_of_default; by left).
  assert (Hopt : String.eqb (Request.method request) "OPTIONS" = false) by (by rewrite Hm).
  split; [|split]; intros env; split.
  - intros url Hin%IndexTs_fetch_url. by rewrite Hcity in Hin.
  - intros Hpass. pose proof (IndexTs_reaches_upstream P request kv env Hpass) as Hin.
    by rewrite Hcity in Hin.
  - intros url (key & -> & _)%PartA_fetch_url. exists key. by rewrite Hcity.
  - intros key Hne Hkey.
    pose proof (PartA_reaches_upstream P request kv env key Hopt Hp Hkey Hne) as Hin.
    by rewrite Hcity in Hin.
  - intros url (key & -> & _)%PartB_fetch_url. exists key. by rewrite Hcity.
  - intros key Hne Hkey Hpass.
    pose proof (PartB_reaches_upstream P request kv env key Hopt Hkey Hne Hpass) as Hin.
    by rewrite Hcity in Hin.
Qed.

Lemma C9_witness :
  UpstreamFetch "https://api.openweathermap.org/data/2.5/weather?q=Beijing&appid=k&units=metric&lang=zh_cn"
  ∈ events (PartB.fetch (sunny 125000) (get_root []) {| PartB.WEATHER_API_KEY := inr "k" |} ∅).
Proof.
  pose proof (C9_default_city (sunny 125000) (get_root []) ∅ eq_refl eq_refl eq_refl)
    as (_ & _ & HB).
  apply (proj2 (HB {| PartB.WEATHER_API_KEY := inr "k" |}) "k");
    [discriminate | reflexivity | by vm_compute].
Defined.

(** C10.  A request whose [city] parameter is present and empty is handled
    exactly as the same request without the parameter (same response, same
    store, same KV, credential and upstream events), and it invokes the
    upstream with q=Beijing: every upstream call it makes asks for Beijing,
    and the call is made as soon as the handler lets the request through
    (the credential resolves to a non-empty key, the limiter, where there
    is one, passes, the method is not OPTIONS and, where the path is
    checked, the path is the root). *)
Theorem C10_empty_city
    (P : Platform) (request absent : Request.t) (kv : gmap string KVEntry) :
  URL.get (URL.searchParams (Request.url request)) "city" = Some EmptyString →
  URL.get (URL.searchParams (Request.url absent)) "city" = None →
  Request.method absent = Request.method request →
  URL.pathname (Request.url absent) = URL.pathname (Request.url request) →
  Request.headers absent = Request.headers request →
  let beijing key :=
    "https://api.openweathermap.org/data/2.5/weather?q=Beijing&appid="
    +:+ key +:+ "&units=metric&lang=zh_cn" in
  let passes L :=
    JS.ge (readCount (KV_value P kv (fullKey P (getClientIP request)))) (JS.Num L) = false in
  (∀ env, IndexTs.fetch P request env kv = IndexTs.fetch P absent env kv
          ∧ (∀ url, UpstreamFetch url ∈ events (IndexTs.fetch P request env kv) →
                    url = beijing (IndexTs.WEATHER_API_KEY env))
          ∧ (passes IndexTs.RATE_LIMIT →
             UpstreamFetch (beijing (IndexTs.WEATHER_API_KEY env))
             ∈ events (IndexTs.fetch P request env kv)))
  ∧ (∀ env, PartA.fetch P request env kv = PartA.fetch P absent env kv
            ∧ (∀ url, UpstreamFetch url ∈ events (PartA.fetch P request env kv) →
                      ∃ key, url = beijing key)
            ∧ (∀ key, key ≠ EmptyString →
                      PartA.WEATHER_API_KEY env = PartA.Plain key
                      ∨ PartA.WEATHER_API_KEY env = PartA.SecretsStore (inr key) →
                      String.eqb (Request.method request) "OPTIONS" = false →
                      URL.pathname (Request.url request) = "/" →
                      UpstreamFetch (beijing key)
                      ∈ events (PartA.fetch P request env kv)))
  ∧ (∀ env, PartB.fetch P request env kv = PartB.fetch P absent env kv
            ∧ (∀ url, UpstreamFetch url ∈ events (PartB.fetch P request env kv) →
                      ∃ key, url = beijing key)
            ∧ (∀ key, key ≠ EmptyString →
                      PartB.WEATHER_API_KEY env = inr key →
                      String.eqb (Request.method request) "OPTIONS" = false →
                      passes PartB.RATE_LIMIT →
                      UpstreamFetch (beijing key)
                      ∈ events (PartB.fetch P request env kv))).
Proof.
  intros Hc Ha Hm Hp Hh beijing passes.
  assert (Hcity : city_of request = "Beijing") by (apply city_of_default; by right).
  split; [|split]; intros env; split; [|split| |split| |split].
  - unfold IndexTs.fetch, getClientIP. by rewrite Hc, Ha, Hh.
  - intros url Hin%IndexTs_fetch_url. by rewrite Hcity in Hin.
  - intros Hpass. pose proof (IndexTs_reaches_upstream P request kv env Hpass) as Hin.
    by rewrite Hcity in Hin.
  - unfold PartA.fetch. by rewrite Hc, Ha, Hm, Hp, Hh.
  - intros url (key & -> & _)%PartA_fetch_url. exists key. by rewrite Hcity.
  - intros key Hne Hkey Hopt Hroot.
    pose proof (PartA_reaches_upstream P request kv env key Hopt Hroot Hkey Hne) as Hin.
    by rewrite Hcity in Hin.
  - unfold PartB.fetch, getClientIP. by rewrite Hc, Ha, Hm, Hh.
  - intros url (key & -> & _)%PartB_fetch_url. exists key. by rewrite Hcity.
  - intros key Hne Hkey Hopt Hpass.
    pose proof (PartB_reaches_upstream P request kv env key Hopt Hkey Hne Hpass) as Hin.
    by rewrite Hcity in Hin.
Qed.

Lemma C10_witness :
  PartB.fetch (sunny 125000) (get_root [("city", EmptyString)])
    {| PartB.WEATHER_API_KEY := inr "k" |} ∅
  = PartB.fetch (sunny 125000) (get_root []) {| PartB.WEATHER_API_KEY := inr "k" |} ∅
  ∧ UpstreamFetch "https://api.openweathermap.org/data/2.5/weather?q=Beijing&appid=k&units=metric&lang=zh_cn"
    ∈ events (PartB.fetch (sunny 125000) (get_root [("city", EmptyString)])
                {| PartB.WEATHER_API_KEY := inr "k" |} ∅).
Proof.
  pose proof (C10_empty_city (sunny 125000) (get_root [("city", EmptyString)]) (get_root []) ∅
                eq_refl eq_refl eq_refl eq_refl eq_refl) as (_ & _ & HB).
  destruct (HB {| PartB.WEATHER_API_KEY := inr "k" |}) as (Heq & _ & Hlive).
  split; [exact Heq|].
  apply (Hlive "k"); [discriminate | reflexivity | reflexivity | by vm_compute].
Defined.

(** * Further properties of the code *)

(** ** The limiter over arbitrary sequences of calls *)

Lemma same_bucket_key (P : Platform) (ip : string) (c : Platform * string) :
  same_bucket P ip c = true ↔ fullKey c.1 c.2 = fullKey P ip.
Proof.
  unfold same_bucket. rewrite bool_decide_eq_true, fullKey_inj. done.
Qed.

Lemma bucket_count_snoc (past : list (Platform * string)) (c : Platform * string)
    (P : Platform) (ip : string) :
  bucket_count (past ++ [c]) P ip
  = bucket_count past P ip + (if same_bucket P ip c then 1 else 0).
Proof.
  unfold bucket_count. rewrite List.filter_app, length_app. simpl.
  destruct (same_bucket P ip c); simpl; lia.
Qed.

Lemma bucket_count_same (past : list (Platform * string)) (P P' : Platform) (ip : string) :
  windowKey P = windowKey P' → bucket_count past P ip = bucket_count past P' ip.
Proof.
  intros Hw. unfold bucket_count. do 2 f_equal.
  apply List.filter_ext. intros c. unfold same_bucket. by rewrite Hw.
Qed.

Lemma bucket_count_nonneg (past : list (Platform * string)) (P : Platform) (ip : string) :
  0 ≤ bucket_count past P ip.
Proof. unfold bucket_count. lia. Qed.

Lemma counts_calls_empty (L : Z) : counts_calls L [] ∅.
Proof.
  intros P ip. unfold KV_value. rewrite lookup_empty. simpl.
  unfold bucket_count. simpl. f_equal. lia.
Qed.

Lemma decision_counts_calls (L : Z) (past : list (Platform * string))
    (kv : gmap string KVEntry) (P : Platform) (ip : string) :
  counts_calls L past kv →
  outcome (checkRateLimit L P ip kv) = Returned (decisionAt L (bucket_count past P ip)).
Proof.
  intros Hinv. rewrite checkRateLimit_run. simpl. rewrite (Hinv P ip).
  pose proof (bucket_count_nonneg past P ip) as Hn.
  unfold JS.ge, decisionAt.
  destruct (Z.geb_spec (Z.min (bucket_count past P ip) (Z.max L 0)) L),
           (Z.ltb_spec (bucket_count past P ip) L); try lia; simpl; [done|].
  do 3 f_equal. lia.
Qed.

Lemma checkRateLimit_counts_calls (L : Z) (past : list (Platform * string))
    (kv : gmap string KVEntry) (P : Platform) (ip : string) :
  counts_calls L past kv →
  counts_calls L (past ++ [(P, ip)]) (store (checkRateLimit L P ip kv)).
Proof.
  intros Hinv P' ip'. rewrite bucket_count_snoc.
  pose proof (bucket_count_nonneg past P ip) as Hn.
  pose proof (bucket_count_nonneg past P' ip') as Hn'.
  rewrite checkRateLimit_run. simpl. rewrite (Hinv P ip). unfold JS.ge.
  destruct (same_bucket P' ip' (P, ip)) eqn:Hb.
  - apply bool_decide_eq_true in Hb as [Hip Hw]. simpl in Hip, Hw. subst ip'.
    rewrite <- (bucket_count_same past P P' ip Hw).
    destruct (Z.geb_spec (Z.min (bucket_count past P ip) (Z.max L 0)) L); simpl.
    + rewrite (Hinv P' ip), <- (bucket_count_same past P P' ip Hw). f_equal. lia.
    + replace (Z.min (bucket_count past P ip) (Z.max L 0) + 1)
        with (Z.min (bucket_count past P ip + 1) (Z.max L 0)) by lia.
      by apply read_after_write.
  - assert (Hne : fullKey P ip ≠ fullKey P' ip').
    { intros Heq. apply (same_bucket_key P' ip' (P, ip)) in Heq. congruence. }
    destruct (Z.geb_spec (Z.min (bucket_count past P ip) (Z.max L 0)) L); simpl.
    + rewrite (Hinv P' ip'). f_equal. lia.
    + unfold KV_value. rewrite lookup_insert_ne by done.
      fold (KV_value P' kv (fullKey P' ip')). rewrite (Hinv P' ip'). f_equal. lia.
Qed.

Lemma seq_counts_calls (L : Z) (calls past : list (Platform * string))
    (kv : gmap string KVEntry) :
  counts_calls L past kv →
  ∀ (i : nat) (r : Run RateDecision) (c : Platform * string),
    checkRateLimit_seq L calls kv !! i = Some r →
    calls !! i = Some c →
    outcome r = Returned (decisionAt L (bucket_count (past ++ take i calls) c.1 c.2)).
Proof.
  revert past kv. induction calls as [|[P ip] calls IH]; intros past kv Hinv i r c Hr Hc;
    [done|].
  destruct i as [|i]; cbn -[checkRateLimit] in Hr, Hc.
  - injection Hr as <-. injection Hc as <-. cbn -[checkRateLimit]. rewrite app_nil_r.
    by apply decision_counts_calls.
  - cbn -[checkRateLimit]. rewrite (cons_middle (P, ip)), app_assoc.
    apply (IH _ (store (checkRateLimit L P ip kv))); try done.
    by apply checkRateLimit_counts_calls.
Qed.

Lemma final_counts_calls (L : Z) (calls past : list (Platform * string))
    (kv : gmap string KVEntry) :
  counts_calls L past kv →
  counts_calls L (past ++ calls) (checkRateLimit_final L calls kv).
Proof.
  revert past kv. induction calls as [|[P ip] calls IH]; intros past kv Hinv;
    cbn -[checkRateLimit].
  - by rewrite app_nil_r.
  - rewrite (cons_middle (P, ip)), app_assoc.
    apply IH. by apply checkRateLimit_counts_calls.
Qed.

(** X1.  From the empty store, whatever the IPs and instants of a sequence of
    calls, each call is decided by the number of earlier calls of its own
    bucket (same IP, same window) alone: with n of them it is allowed with
    remaining = LIMIT - n - 1 when n < LIMIT and denied otherwise. *)
Theorem X1_decided_by_own_bucket (L : Z) (calls : list (Platform * string)) (i : nat) :
  outcome <$> checkRateLimit_seq L calls ∅ !! i
  = (λ c, let n := bucket_count (take i calls) c.1 c.2 in
          Returned (if n <? L then {| allowed := true; remaining := JS.Num (L - n - 1) |}
                    else {| allowed := false; remaining := JS.Num 0 |}))
    <$> calls !! i.
Proof.
  destruct (calls !! i) as [c|] eqn:Hc.
  - destruct (lookup_lt_is_Some_2 (checkRateLimit_seq L calls ∅) i) as [r Hr].
    { rewrite seq_length. by apply lookup_lt_Some in Hc. }
    rewrite Hr. simpl. f_equal.
    exact (seq_counts_calls L calls [] ∅ (counts_calls_empty L) i r c Hr Hc).
  - rewrite lookup_ge_None_2; [done|].
    rewrite seq_length. by apply lookup_ge_None_1.
Qed.

Lemma seq_snoc (L : Z) (calls : list (Platform * string)) (c : Platform * string)
    (kv : gmap string KVEntry) :
  checkRateLimit_seq L (calls ++ [c]) kv
  = (checkRateLimit_seq L calls kv
     ++ [checkRateLimit L c.1 c.2 (checkRateLimit_final L calls kv)])%list.
Proof.
  revert kv. induction calls as [|[P ip] calls IH]; intros kv; cbn -[checkRateLimit].
  - by destruct c.
  - by rewrite IH.
Qed.

(** X2.  From the empty store, a sequence of calls allows, in each bucket
    (IP and window), exactly as many calls as were made in it, up to the
    limit: never more than LIMIT per IP and window. *)
Theorem X2_allowed_per_bucket
    (L : Z) (calls : list (Platform * string)) (P : Platform) (ip : string) :
  allowed_in_bucket L calls P ip = Z.min (bucket_count calls P ip) (Z.max L 0).
Proof.
  induction calls as [|c calls IH] using rev_ind.
  - unfold allowed_in_bucket, bucket_count. simpl. lia.
  - rewrite bucket_count_snoc. unfold allowed_in_bucket in *.
    rewrite seq_snoc, zip_with_app by (by rewrite seq_length).
    rewrite List.filter_app, length_app, Nat2Z.inj_add, IH.
    pose proof (bucket_count_nonneg calls P ip) as Hn.
    cbn -[checkRateLimit]. destruct (same_bucket P ip c) eqn:Hb; [|simpl; lia].
    apply bool_decide_eq_true in Hb as [Hip Hw].
    pose proof (final_counts_calls L calls [] ∅ (counts_calls_empty L)) as Hinv.
    simpl in Hinv. unfold was_allowed.
    rewrite (decision_counts_calls L calls _ c.1 c.2 Hinv).
    rewrite Hip, (bucket_count_same calls c.1 P ip Hw). unfold decisionAt.
    destruct (Z.ltb_spec (bucket_count calls P ip) L); simpl; lia.
Qed.

Lemma bucket_count_app (l1 l2 : list (Platform * string)) (P : Platform) (ip : string) :
  bucket_count (l1 ++ l2) P ip = bucket_count l1 P ip + bucket_count l2 P ip.
Proof. unfold bucket_count. rewrite List.filter_app, length_app. lia. Qed.

Lemma bucket_count_le_length (l : list (Platform * string)) (P : Platform) (ip : string) :
  bucket_count l P ip ≤ Z.of_nat (length l).
Proof. unfold bucket_count. pose proof (List.filter_length_le (same_bucket P ip) l). lia. Qed.

Lemma bucket_count_other_window (ip ip' : string) (l : list Platform) (P : Platform) :
  Forall (λ P', windowKey P' ≠ windowKey P) l →
  bucket_count (map (λ P', (P', ip')) l) P ip = 0.
Proof.
  unfold bucket_count. induction 1 as [|P' l HP' _ IH]; simpl; [done|].
  unfold same_bucket at 1. simpl. rewrite bool_decide_false by tauto. exact IH.
Qed.

(** X3.  Bursts at a window edge: from the empty store, up to LIMIT calls
    in one window followed by up to LIMIT calls in the next are all allowed,
    however close to the boundary they are. *)
Theorem X3_burst_across_boundary
    (L : Z) (ip : string) (w : Z) (before after : list Platform) :
  Forall (λ P, windowKey P = w) before →
  Forall (λ P, windowKey P = w + 1) after →
  Z.of_nat (length before) ≤ L →
  Z.of_nat (length after) ≤ L →
  Forall (λ r, ∃ n, 0 ≤ n < L
                    ∧ outcome r = Returned {| allowed := true; remaining := JS.Num n |})
         (checkRateLimit_seq L (map (λ P, (P, ip)) (before ++ after)) ∅).
Proof.
  intros Hb Ha Hlb Hla. apply Forall_lookup. intros i r Hr.
  destruct (lookup_lt_is_Some_2 (map (λ P, (P, ip)) (before ++ after)) i) as [c Hc].
  { apply lookup_lt_Some in Hr. by rewrite seq_length in Hr. }
  pose proof (seq_counts_calls L _ [] ∅ (counts_calls_empty L) i r c Hr Hc) as Hout.
  simpl in Hout. rewrite Hout. clear Hout Hr.
  pose proof (bucket_count_nonneg (take i (map (λ P, (P, ip)) (before ++ after))) c.1 c.2).
  assert (Hlt : bucket_count (take i (map (λ P, (P, ip)) (before ++ after))) c.1 c.2 < L).
  { rewrite map_app in Hc |- *. rewrite take_app.
    rewrite bucket_count_app. rewrite length_map.
    destruct (decide (i < length before)%nat) as [Hi | Hi].
    - replace (i - length before)%nat with 0%nat by lia. rewrite take_0.
      pose proof (bucket_count_le_length (take i (map (λ P, (P, ip)) before)) c.1 c.2).
      rewrite length_take, length_map in *. unfold bucket_count at 2. simpl. lia.
    - rewrite lookup_app_r in Hc by (rewrite length_map; lia).
      rewrite length_map in Hc.
      rewrite take_ge by (rewrite length_map; lia).
      apply list_lookup_fmap_Some_1 in Hc as (P & -> & HP). simpl.
      apply lookup_lt_Some in HP as Hlen.
      rewrite bucket_count_other_window.
      + pose proof (bucket_count_le_length
                      (take (i - length before) (map (λ P, (P, ip)) after)) P ip).
        rewrite length_take, length_map in *. lia.
      + eapply Forall_lookup_1 in HP; [|exact Ha]. simpl in HP.
        eapply Forall_impl; [exact Hb|]. simpl. intros. lia. }
  unfold decisionAt. rewrite (proj2 (Z.ltb_lt _ _) Hlt).
  eexists. split; [|reflexivity]. lia.
Qed.

Lemma X3_witness :
  Forall (λ r, ∃ n, 0 ≤ n < 2
                    ∧ outcome r = Returned {| allowed := true; remaining := JS.Num n |})
         (checkRateLimit_seq 2
            (map (λ P, (P, "203.0.113.7")) (before_boundary ++ after_boundary)) ∅).
Proof.
  apply (X3_burst_across_boundary 2 "203.0.113.7" 2 before_boundary after_boundary);
    [repeat constructor | repeat constructor | simpl; lia | simpl; lia].
Defined.

(** X4.  An unparsable stored value switches the limit off for the rest of
    the window: the first call stores "NaN", which does not parse either, so
    every call of the window is allowed with remaining = NaN, however many
    there are. *)
Theorem X4_unparsable_disables_limit
    (L : Z) (ip : string) (w : Z) (calls : list Platform) (kv : gmap string KVEntry) :
  Forall (λ P, windowKey P = w
               ∧ ∃ v, KV_value P kv (fullKey P ip) = Some v
                      ∧ v ≠ EmptyString ∧ JS.parseInt v = JS.NaN) calls →
  Forall (λ r, outcome r = Returned {| allowed := true; remaining := JS.NaN |})
         (checkRateLimit_seq L (map (λ P, (P, ip)) calls) kv).
Proof.
  revert kv. induction calls as [|P calls IH]; intros kv Hall; [constructor|].
  apply Forall_cons in Hall as [(Hw & v & Hv & Hne & Hnan) Hrest].
  cbn -[checkRateLimit]. rewrite checkRateLimit_run, Hv.
  assert (Hr : readCount (Some v) = JS.NaN) by (destruct v; [done | exact Hnan]).
  rewrite Hr. simpl. constructor; [done|].
  apply IH. eapply Forall_impl; [exact Hrest|]. simpl.
  intros P' (Hw' & _). split; [done|]. exists "NaN".
  repeat split; try done.
  unfold KV_value. rewrite <- (fullKey_window P P' ip) by congruence.
  rewrite lookup_insert_eq. simpl.
  pose proof (window_outlived P P' ltac:(congruence)).
  by destruct (Z.ltb_spec (now P') (now P + RATE_LIMIT_WINDOW)); [|lia].
Qed.

Lemma X4_witness :
  Forall (λ r, outcome r = Returned {| allowed := true; remaining := JS.NaN |})
         (checkRateLimit_seq 1
            (map (λ P, (P, "203.0.113.7")) [offline 125000; offline 126000; offline 127000])
            garbled).
Proof.
  apply (X4_unparsable_disables_limit 1 "203.0.113.7" 2).
  repeat (constructor; [split; [reflexivity|]; exists "abc"; by vm_compute |]).
  constructor.
Defined.

(** X5.  The limiter key identifies the bucket: two calls use the same key
    exactly when they have the same IP and fall in the same window (also for
    IPs that contain colons), and no limiter key is the test key "abc" the
    handlers read. *)
Theorem X5_key_identifies_bucket (P P' : Platform) (ip ip' : string) :
  (fullKey P ip = fullKey P' ip' ↔ ip = ip' ∧ windowKey P = windowKey P')
  ∧ fullKey P ip ≠ "abc".
Proof.
  split.
  - apply fullKey_inj.
  - unfold fullKey. intros Heq.
    assert (Hassoc : ∀ x y, ("rate_limit:" +:+ x) +:+ ":" +:+ y
                            = String "r" ("ate_limit:" +:+ (x +:+ String ":" y))) by done.
    rewrite Hassoc in Heq. discriminate Heq.
Qed.

(** X6.  The window of a call is the minute of its clock: the window index
    is w exactly when Date.now() lies in [60000 w, 60000 (w + 1)), so two
    instants 60 s apart always fall in consecutive windows. *)
Theorem X6_window_is_the_minute (P P' : Platform) (w : Z) :
  (windowKey P = w ↔ 60000 * w ≤ Date_now P < 60000 * (w + 1))
  ∧ (Date_now P' = Date_now P + 60000 → windowKey P' = windowKey P + 1).
Proof.
  unfold windowKey, now, RATE_LIMIT_WINDOW.
  assert (Hdiv : ∀ t, t / 1000 / 60 = t / 60000).
  { intros t. rewrite Z.div_div by lia. done. }
  rewrite !Hdiv. split.
  - pose proof (Z.div_mod (Date_now P) 60000 ltac:(lia)).
    pose proof (Z.mod_pos_bound (Date_now P) 60000 ltac:(lia)).
    split; [intros <-; lia | intros Hb; nia].
  - intros ->. replace (Date_now P + 60000) with (Date_now P + 1 * 60000) by lia.
    by rewrite Z.div_add by lia.
Qed.

Lemma X6_witness : windowKey (offline 185000) = windowKey (offline 125000) + 1.
Proof.
  exact (proj2 (X6_window_is_the_minute (offline 125000) (offline 185000) 2) eq_refl).
Defined.

(** X7.  On stores the limiter itself built from the empty one, the
    remaining count of every decision is an integer, never NaN or negative:
    between 0 and LIMIT - 1 for an allowed call and 0 for a denied one. *)
Theorem X7_remaining_in_range (L : Z) (calls : list (Platform * string)) :
  Forall (λ r, ∃ d n, outcome r = Returned d
                      ∧ remaining d = JS.Num n
                      ∧ if allowed d then 0 ≤ n < L else n = 0)
         (checkRateLimit_seq L calls ∅).
Proof.
  apply Forall_lookup. intros i r Hr.
  destruct (lookup_lt_is_Some_2 calls i) as [c Hc].
  { apply lookup_lt_Some in Hr. by rewrite seq_length in Hr. }
  pose proof (seq_counts_calls L calls [] ∅ (counts_calls_empty L) i r c Hr Hc) as Hout.
  simpl in Hout. rewrite Hout.
  pose proof (bucket_count_nonneg (take i calls) c.1 c.2) as Hn.
  unfold decisionAt. destruct (Z.ltb_spec (bucket_count (take i calls) c.1 c.2) L).
  - eexists _, _. repeat split; simpl; lia.
  - eexists _, _. repeat split.
Qed.

(** ** The handlers as decision tables *)

Ltac expose :=
  cbv beta iota zeta delta
    [try_catch bind ret throw secret_get kv_get kv_put global_fetch resp_json
     checkRateLimit outcome store events negb relay].

Lemma IndexTs_fetch_run
    (P : Platform) (request : Request.t) (env : IndexTs.Env) (kv : gmap string KVEntry) :
  IndexTs.fetch P request env kv
  = let key := fullKey P (getClientIP request) in
    let count := readCount (KV_value P kv key) in
    let url := apiUrl (city_of request) (IndexTs.WEATHER_API_KEY env) in
    if JS.ge count (JS.Num IndexTs.RATE_LIMIT) then
      {| outcome := Returned (too_many_requests IndexTs.RATE_LIMIT []);
         store := kv;
         events := [KVGet "abc"; KVGet key] |}
    else
      {| outcome :=
           Returned
             (relay P url plain_500 plain_502
                (weather_response [] IndexTs.RATE_LIMIT
                   (JS.sub (JS.sub (JS.Num IndexTs.RATE_LIMIT) count) (JS.Num 1))));
         store := <[key := {| value := JS.ToString (JS.add count (JS.Num 1));
                              expiration := now P + RATE_LIMIT_WINDOW |}]> kv;
         events := [ KVGet "abc"; KVGet key;
                     KVPut key (JS.ToString (JS.add count (JS.Num 1))) RATE_LIMIT_WINDOW;
                     UpstreamFetch url ] |}.
Proof.
  unfold IndexTs.fetch, city_of. expose.
  destruct (JS.ge _ _); [reflexivity|]. expose.
  destruct (upstream P _) as [e | resp]; [reflexivity|]. expose.
  destruct (Upstream.ok resp); [|reflexivity]. expose.
  destruct (Upstream.json resp); reflexivity.
Qed.

Lemma PartA_fetch_run
    (P : Platform) (request : Request.t) (env : PartA.Env) (kv : gmap string KVEntry) :
  PartA.fetch P request env kv
  = let origin := Headers.get (Request.headers request) "Origin" in
    let quiet resp evs := {| outcome := Returned resp; store := kv; events := evs |} in
    let served apiKey evs :=
      quiet (relay P (apiUrl (city_of request) apiKey) (internal_error origin)
               (upstream_error origin)
               (weather_response (getCorsHeaders origin) PartA.RATE_LIMIT (JS.Num 100)))
            (evs ++ [UpstreamFetch (apiUrl (city_of request) apiKey)])%list in
    if String.eqb (Request.method request) "OPTIONS" then quiet (no_content origin) []
    else if String.eqb (URL.pathname (Request.url request)) "/" then
      match PartA.WEATHER_API_KEY env with
      | PartA.Undefined => quiet (missing_binding origin) []
      | PartA.Plain s =>
          if JS.truthy s then served s [] else quiet (missing_binding origin) []
      | PartA.SecretsStore (inl e) => quiet (key_unavailable origin e) [SecretGet]
      | PartA.SecretsStore (inr s) =>
          if JS.truthy s then served s [SecretGet]
          else quiet (PartA.emptyKey origin) [SecretGet]
      | PartA.Unrecognised typeof => quiet (wrong_binding origin typeof) []
      end
    else quiet (not_found origin (URL.pathname (Request.url request))) [].
Proof.
  unfold PartA.fetch, PartA.resolveApiKey, city_of. cbv zeta.
  destruct (String.eqb (Request.method request) "OPTIONS"); [reflexivity|].
  destruct (String.eqb (URL.pathname (Request.url request)) "/"); [|reflexivity].
  cbv beta iota delta [negb].
  destruct (PartA.WEATHER_API_KEY env) as [|s|[e|s]|t]; try reflexivity.
  - expose. cbv beta iota delta [PartA.falsy negb].
    destruct (JS.truthy s); [|reflexivity]. expose.
    destruct (upstream P _) as [e | resp]; [reflexivity|]. expose.
    destruct (Upstream.ok resp); [|reflexivity]. expose.
    destruct (Upstream.json resp); reflexivity.
  - expose. cbv beta iota delta [PartA.falsy negb].
    destruct (JS.truthy s); [|reflexivity]. expose.
    destruct (upstream P _) as [e | resp]; [reflexivity|]. expose.
    destruct (Upstream.ok resp); [|reflexivity]. expose.
    destruct (Upstream.json resp); reflexivity.
Qed.

Lemma PartB_fetch_run
    (P : Platform) (request : Request.t) (env : PartB.Env) (kv : gmap string KVEntry) :
  PartB.fetch P request env kv
  = let origin := Headers.get (Request.headers request) "Origin" in
    let key := fullKey P (getClientIP request) in
    let count := readCount (KV_value P kv key) in
    let quiet resp evs := {| outcome := Returned resp; store := kv; events := evs |} in
    if String.eqb (Request.method request) "OPTIONS" then quiet (no_content origin) []
    else
      match PartB.WEATHER_API_KEY env with
      | inl e => quiet (key_unavailable origin e) [SecretGet]
      | inr apiKey =>
          if JS.truthy apiKey then
            if JS.ge count (JS.Num PartB.RATE_LIMIT) then
              quiet (too_many_requests PartB.RATE_LIMIT (getCorsHeaders origin))
                    [SecretGet; KVGet "abc"; KVGet key]
            else
              {| outcome :=
                   Returned
                     (relay P (apiUrl (city_of request) apiKey) (internal_error origin)
                        (upstream_error origin)
                        (weather_response (getCorsHeaders origin) PartB.RATE_LIMIT
                           (JS.sub (JS.sub (JS.Num PartB.RATE_LIMIT) count) (JS.Num 1))));
                 store := <[key := {| value := JS.ToString (JS.add count (JS.Num 1));
                                      expiration := now P + RATE_LIMIT_WINDOW |}]> kv;
                 events := [ SecretGet; KVGet "abc"; KVGet key;
                             KVPut key (JS.ToString (JS.add count (JS.Num 1)))
                                   RATE_LIMIT_WINDOW;
                             UpstreamFetch (apiUrl (city_of request) apiKey) ] |}
          else quiet (PartA.emptyKey origin) [SecretGet]
      end.
Proof.
  unfold PartB.fetch, PartB.resolveApiKey, city_of. cbv zeta.
  destruct (String.eqb (Request.method request) "OPTIONS"); [reflexivity|].
  expose.
  destruct (PartB.WEATHER_API_KEY env) as [e | apiKey]; [reflexivity|]. expose.
  destruct (JS.truthy apiKey); [|reflexivity]. expose.
  destruct (JS.ge _ _); [reflexivity|]. expose.
  destruct (upstream P _) as [e | resp]; [reflexivity|]. expose.
  destruct (Upstream.ok resp); [|reflexivity]. expose.
  destruct (Upstream.json resp); reflexivity.
Qed.

(** ** The handlers, path by path *)

Ltac table := rewrite ?IndexTs_fetch_run, ?PartA_fetch_run, ?PartB_fetch_run; cbv zeta.

Ltac cases :=
  repeat match goal with
    | |- context [String.eqb ?a ?b] => destruct (String.eqb a b) eqn:?
    | |- context [PartA.WEATHER_API_KEY ?e] =>
        destruct (PartA.WEATHER_API_KEY e) as [| ? | [?|?] | ?] eqn:?
    | |- context [PartB.WEATHER_API_KEY ?e] => destruct (PartB.WEATHER_API_KEY e) eqn:?
    | |- context [JS.truthy ?s] => destruct (JS.truthy s) eqn:?
    | |- context [JS.ge ?a ?b] => destruct (JS.ge a b) eqn:?
    end.

Ltac relayed :=
  unfold relay;
  repeat match goal with
    | |- context [upstream ?P ?u] => destruct (upstream P u) eqn:?
    | |- context [Upstream.ok ?r] => destruct (Upstream.ok r) eqn:?
    | |- context [Upstream.json ?r] => destruct (Upstream.json r) eqn:?
    end.

(** X8.  No exception escapes a handler: every run ends in a response, and
    its status is one of 200, 429, 500, 502 in [src/index.ts], one of 200,
    204, 404, 500, 502 in the first handler of [unnamed/part_000] (never
    429: its limiter is switched off) and one of 200, 204, 429, 500, 502 in
    the second. *)
Theorem X8_always_a_response
    (P : Platform) (request : Request.t) (kv : gmap string KVEntry) :
  (∀ env, ∃ resp, outcome (IndexTs.fetch P request env kv) = Returned resp
                  ∧ Response.status resp ∈ [200; 429; 500; 502])
  ∧ (∀ env, ∃ resp, outcome (PartA.fetch P request env kv) = Returned resp
                    ∧ Response.status resp ∈ [200; 204; 404; 500; 502])
  ∧ (∀ env, ∃ resp, outcome (PartB.fetch P request env kv) = Returned resp
                    ∧ Response.status resp ∈ [200; 204; 429; 500; 502]).
Proof.
  split; [|split]; intros env; table; cases;
    (eexists; split; [reflexivity|]); relayed;
    cbv [Response.status Response.new too_many_requests plain_500 plain_502
         weather_response no_content not_found missing_binding wrong_binding
         key_unavailable internal_error upstream_error PartA.emptyKey];
    set_solver.
Qed.

(** X9.  No retries: a run calls the upstream at most once, and when it
    does, that call is the last thing it does to the outside world. *)
Theorem X9_at_most_one_upstream_call
    (P : Platform) (request : Request.t) (kv : gmap string KVEntry) :
  let once (evs : list Event) :=
    upstream_calls evs = []
    ∨ ∃ url, upstream_calls evs = [url] ∧ last evs = Some (UpstreamFetch url) in
  (∀ env, once (events (IndexTs.fetch P request env kv)))
  ∧ (∀ env, once (events (PartA.fetch P request env kv)))
  ∧ (∀ env, once (events (PartB.fetch P request env kv))).
Proof.
  intros once. unfold once.
  split; [|split]; intros env; table; cases; cbn [events];
    first [ by left | right; eexists; split; reflexivity ].
Qed.

(** X10.  A request that finds the limit reached is answered 429 with the
    JSON body [{error, retryAfter: 60}] and the headers Retry-After: 60,
    X-RateLimit-Limit and X-RateLimit-Remaining: 0 (after the CORS headers
    in [unnamed/part_000]); the store is left as it was, nothing is written
    and the upstream is not called. *)
Theorem X10_too_many_requests
    (P : Platform) (request : Request.t) (kv : gmap string KVEntry) (n : Z) :
  readCount (KV_value P kv (fullKey P (getClientIP request))) = JS.Num n →
  let origin := Headers.get (Request.headers request) "Origin" in
  let answer (L : string) (first : list (string * string)) (r : Run Response.t) :=
    outcome r
    = Returned
        {| Response.status := 429;
           Response.headers :=
             first ++ [ ("Content-Type", "application/json"); ("Retry-After", "60");
                        ("X-RateLimit-Limit", L); ("X-RateLimit-Remaining", "0") ];
           Response.body :=
             Some (JS.JSON_stringify
                     [ ("error", JS.JString "请求过于频繁，请稍后再试");
                       ("retryAfter", JS.JNumber (JS.Num 60)) ]) |}
    ∧ store r = kv
    ∧ kv_puts (events r) = []
    ∧ upstream_calls (events r) = [] in
  (10 ≤ n → ∀ env, answer "10" [] (IndexTs.fetch P request env kv))
  ∧ (30 ≤ n → ∀ env key,
       String.eqb (Request.method request) "OPTIONS" = false →
       PartB.WEATHER_API_KEY env = inr key →
       key ≠ EmptyString →
       answer "30" (getCorsHeaders origin) (PartB.fetch P request env kv)).
Proof.
  intros Hn origin answer. unfold answer. split.
  - intros HL env. table. rewrite Hn. unfold JS.ge.
    destruct (Z.geb_spec n IndexTs.RATE_LIMIT) as [_ | Hlt];
      [|unfold IndexTs.RATE_LIMIT in Hlt; lia].
    repeat split.
  - intros HL env key Hm Hkey Hne. table. rewrite Hm, Hkey, Hn.
    assert (Ht : JS.truthy key = true) by (by destruct key).
    rewrite Ht. unfold JS.ge.
    destruct (Z.geb_spec n PartB.RATE_LIMIT) as [_ | Hlt];
      [|unfold PartB.RATE_LIMIT in Hlt; lia].
    repeat split.
Qed.

Lemma X10_witness :
  outcome (IndexTs.fetch (sunny 125000) (get_root []) {| IndexTs.WEATHER_API_KEY := "k" |}
             full_bucket_30)
  = Returned
      {| Response.status := 429;
         Response.headers :=
           [ ("Content-Type", "application/json"); ("Retry-After", "60");
             ("X-RateLimit-Limit", "10"); ("X-RateLimit-Remaining", "0") ];
         Response.body :=
           Some (JS.JSON_stringify
                   [ ("error", JS.JString "请求过于频繁，请稍后再试");
                     ("retryAfter", JS.JNumber (JS.Num 60)) ]) |}
  ∧ upstream_calls
      (events (PartB.fetch (sunny 125000) (get_root []) {| PartB.WEATHER_API_KEY := inr "k" |}
                 full_bucket_30))
    = [].
Proof.
  pose proof (X10_too_many_requests (sunny 125000) (get_root []) full_bucket_30 30
                ltac:(by vm_compute)) as [HI HB].
  split.
  - apply (HI ltac:(lia) {| IndexTs.WEATHER_API_KEY := "k" |}).
  - apply (HB ltac:(lia) {| PartB.WEATHER_API_KEY := inr "k" |} "k"
              eq_refl eq_refl ltac:(discriminate)).
Defined.

(** X11.  The success path: when the stored count is a number n with
    0 <= n < LIMIT and the upstream answers 2xx with a body that parses,
    the response is 200 with the headers Content-Type: application/json,
    X-RateLimit-Limit = LIMIT and X-RateLimit-Remaining = LIMIT - n - 1
    (always 100 where the limiter is switched off), after the CORS headers
    in [unnamed/part_000], and the counter of the client is stored as
    n + 1.  The body is the [JSON.stringify] of what [json()] gave, which is
    how the model carries the payload. *)
Theorem X11_success_response
    (P : Platform) (request : Request.t) (kv : gmap string KVEntry)
    (n : Z) (key : string) (resp : Upstream.t) (data : string) :
  readCount (KV_value P kv (fullKey P (getClientIP request))) = JS.Num n →
  0 ≤ n →
  upstream P (apiUrl (city_of request) key) = inr resp →
  Upstream.ok resp = true →
  Upstream.json resp = inr data →
  key ≠ EmptyString →
  String.eqb (Request.method request) "OPTIONS" = false →
  URL.pathname (Request.url request) = "/" →
  let origin := Headers.get (Request.headers request) "Origin" in
  let ok (first : list (string * string)) (L left : string) :=
    Returned
      {| Response.status := 200;
         Response.headers :=
           first ++ [ ("Content-Type", "application/json");
                      ("X-RateLimit-Limit", L); ("X-RateLimit-Remaining", left) ];
         Response.body := Some data |} in
  let counted :=
    <[fullKey P (getClientIP request) :=
        {| value := JS.ToString (JS.Num (n + 1));
           expiration := now P + RATE_LIMIT_WINDOW |}]> kv in
  (n < 10 →
   let r := IndexTs.fetch P request {| IndexTs.WEATHER_API_KEY := key |} kv in
   outcome r = ok [] "10" (JS.ToString (JS.Num (9 - n))) ∧ store r = counted)
  ∧ (∀ env,
       PartA.WEATHER_API_KEY env = PartA.Plain key
       ∨ PartA.WEATHER_API_KEY env = PartA.SecretsStore (inr key) →
       let r := PartA.fetch P request env kv in
       outcome r = ok (getCorsHeaders origin) "30" "100" ∧ store r = kv)
  ∧ (n < 30 →
     let r := PartB.fetch P request {| PartB.WEATHER_API_KEY := inr key |} kv in
     outcome r = ok (getCorsHeaders origin) "30" (JS.ToString (JS.Num (29 - n)))
     ∧ store r = counted).
Proof.
  intros Hn Hpos Hup Hok Hjson Hne Hm Hp origin ok counted.
  assert (Ht : JS.truthy key = true) by (by destruct key).
  split; [|split].
  - intros HL r. unfold r, ok, counted. table. rewrite Hn. unfold JS.ge.
    destruct (Z.geb_spec n IndexTs.RATE_LIMIT) as [Hge | _];
      [unfold IndexTs.RATE_LIMIT in Hge; lia|].
    cbn [IndexTs.WEATHER_API_KEY outcome store]. unfold relay.
    rewrite Hup, Hok, Hjson. split; [|reflexivity].
    unfold weather_response, IndexTs.RATE_LIMIT. cbn [JS.sub].
    replace (10 - n - 1) with (9 - n) by lia. reflexivity.
  - intros env Hkey r. unfold r, ok. table. rewrite Hm, Hp. cbn [String.eqb].
    change (String.eqb "/" "/") with true. cbv iota.
    destruct Hkey as [-> | ->]; rewrite Ht; cbn [outcome store]; unfold relay;
      rewrite Hup, Hok, Hjson; split; reflexivity.
  - intros HL r. unfold r, ok, counted. table. rewrite Hm.
    cbn [PartB.WEATHER_API_KEY]. rewrite Ht, Hn. unfold JS.ge.
    destruct (Z.geb_spec n PartB.RATE_LIMIT) as [Hge | _];
      [unfold PartB.RATE_LIMIT in Hge; lia|].
    cbn [outcome store]. unfold relay.
    rewrite Hup, Hok, Hjson. split; [|reflexivity].
    unfold weather_response, PartB.RATE_LIMIT. cbn [JS.sub].
    replace (30 - n - 1) with (29 - n) by lia. reflexivity.
Qed.

Lemma X11_witness :
  outcome (PartB.fetch (sunny 125000) (get_root [("city", "Shanghai")])
             {| PartB.WEATHER_API_KEY := inr "k" |} ∅)
  = Returned
      {| Response.status := 200;
         Response.headers :=
           getCorsHeaders None
           ++ [ ("Content-Type", "application/json");
                ("X-RateLimit-Limit", "30");
                ("X-RateLimit-Remaining", JS.ToString (JS.Num 29)) ];
         Response.body := Some "{}" |}.
Proof.
  assert (H0 : readCount (KV_value (sunny 125000) ∅
                            (fullKey (sunny 125000)
                               (getClientIP (get_root [("city", "Shanghai")]))))
               = JS.Num 0).
  { unfold KV_value. by rewrite lookup_empty. }
  apply (X11_success_response (sunny 125000) (get_root [("city", "Shanghai")]) ∅
           0 "k" {| Upstream.status := 200; Upstream.json := inr "{}" |} "{}"
           H0 ltac:(lia) eq_refl eq_refl eq_refl ltac:(discriminate) eq_refl eq_refl).
  lia.
Defined.

(** X12.  Without a usable API key the handlers of [unnamed/part_000]
    answer 500 and go no further: the KV namespace is neither read nor
    written and the upstream is not called.  That covers a missing binding,
    an empty string, a binding of another type, a [get()] that throws and a
    [get()] that yields the empty string. *)
Theorem X12_no_key_no_upstream
    (P : Platform) (request : Request.t) (kv : gmap string KVEntry) :
  String.eqb (Request.method request) "OPTIONS" = false →
  URL.pathname (Request.url request) = "/" →
  let stopped (r : Run Response.t) :=
    (∃ resp, outcome r = Returned resp ∧ Response.status resp = 500)
    ∧ store r = kv
    ∧ kv_events (events r) = []
    ∧ upstream_calls (events r) = [] in
  (∀ env,
     match PartA.WEATHER_API_KEY env with
     | PartA.Plain key | PartA.SecretsStore (inr key) => key = EmptyString
     | _ => True
     end →
     stopped (PartA.fetch P request env kv))
  ∧ (∀ env,
       match PartB.WEATHER_API_KEY env with
       | inr key => key = EmptyString
       | inl _ => True
       end →
       stopped (PartB.fetch P request env kv)).
Proof.
  intros Hm Hp stopped. unfold stopped. split; intros env Hkey; table; rewrite Hm.
  - rewrite Hp. change (String.eqb "/" "/") with true. cbv iota.
    destruct (PartA.WEATHER_API_KEY env) as [|s|[e|s]|t]; try subst s;
      cbn [JS.truthy outcome store events]; repeat split; eexists; split; reflexivity.
  - destruct (PartB.WEATHER_API_KEY env) as [e|s]; try subst s;
      cbn [JS.truthy outcome store events]; repeat split; eexists; split; reflexivity.
Qed.

Lemma X12_witness :
  upstream_calls
    (events (PartA.fetch (sunny 125000) (get_root [])
               {| PartA.WEATHER_API_KEY := PartA.Undefined |} ∅)) = []
  ∧ kv_events
      (events (PartB.fetch (sunny 125000) (get_root [])
                 {| PartB.WEATHER_API_KEY := inl (JS.Other "no such secret") |} ∅)) = [].
Proof.
  pose proof (X12_no_key_no_upstream (sunny 125000) (get_root []) ∅ eq_refl eq_refl)
    as [HA HB].
  split.
  - apply (HA {| PartA.WEATHER_API_KEY := PartA.Undefined |} I).
  - apply (HB {| PartB.WEATHER_API_KEY := inl (JS.Other "no such secret") |} I).
Defined.

(** X13.  When the upstream call throws, or answers 2xx with a body that
    [json()] rejects, the top-level catch turns the exception into a 500:
    plain text "Internal Error: " followed by String(err) in
    [src/index.ts], the JSON body [{error, message}] with the message of the
    exception in [unnamed/part_000]. *)
Theorem X13_exception_becomes_500
    (P : Platform) (request : Request.t) (kv : gmap string KVEntry)
    (url : string) (e : JS.thrown) :
  upstream P url = inl e
  ∨ (∃ resp, upstream P url = inr resp
             ∧ Upstream.ok resp = true ∧ Upstream.json resp = inl e) →
  let origin := Headers.get (Request.headers request) "Origin" in
  let json_500 :=
    {| Response.status := 500;
       Response.headers := getCorsHeaders origin ++ [("Content-Type", "application/json")];
       Response.body :=
         Some (JS.JSON_stringify
                 [ ("error", JS.JString "服务器内部错误");
                   ("message", JS.JString (JS.errorMessage e)) ]) |} in
  (∀ env, UpstreamFetch url ∈ events (IndexTs.fetch P request env kv) →
          outcome (IndexTs.fetch P request env kv)
          = Returned
              {| Response.status := 500;
                 Response.headers := [("content-type", "text/plain;charset=UTF-8")];
                 Response.body := Some ("Internal Error: " +:+ JS.String_of_thrown e) |})
  ∧ (∀ env, UpstreamFetch url ∈ events (PartA.fetch P request env kv) →
            outcome (PartA.fetch P request env kv) = Returned json_500)
  ∧ (∀ env, UpstreamFetch url ∈ events (PartB.fetch P request env kv) →
            outcome (PartB.fetch P request env kv) = Returned json_500).
Proof.
  intros Hup origin json_500.
  assert (Hrelay : ∀ t s d, relay P url t s d = t e).
  { intros t s d. unfold relay.
    destruct Hup as [-> | (resp & -> & -> & ->)]; reflexivity. }
  split; [|split]; intros env; table; cases; cbn [outcome events];
    intros Hin; fetched Hin; by rewrite Hrelay.
Qed.

Lemma X13_witness :
  outcome (IndexTs.fetch unreachable (get_root []) {| IndexTs.WEATHER_API_KEY := "k" |} ∅)
  = Returned
      {| Response.status := 500;
         Response.headers := [("content-type", "text/plain;charset=UTF-8")];
         Response.body :=
           Some ("Internal Error: "
                 +:+ JS.String_of_thrown (JS.ErrorObject "TypeError" "fetch failed")) |}.
Proof.
  apply (X13_exception_becomes_500 unreachable (get_root []) ∅
           (apiUrl "Beijing" "k") (JS.ErrorObject "TypeError" "fetch failed")
           (or_introl eq_refl)).
  vm_compute. set_solver.
Defined.

(** X14.  Quota and upstream go together: in the two handlers with a
    limiter a run writes the counter exactly when it calls the upstream, so
    a request whose upstream call fails has used up quota all the same, and
    a request that is turned away has used none. *)
Theorem X14_quota_spent_with_upstream
    (P : Platform) (request : Request.t) (kv : gmap string KVEntry) :
  (∀ env, length (kv_puts (events (IndexTs.fetch P request env kv)))
          = length (upstream_calls (events (IndexTs.fetch P request env kv))))
  ∧ (∀ env, length (kv_puts (events (PartB.fetch P request env kv)))
            = length (upstream_calls (events (PartB.fetch P request env kv)))).
Proof.
  split; intros env; table; cases; reflexivity.
Qed.

(** X15.  Every response of the two handlers of [unnamed/part_000], on
    every path, starts with the four CORS headers computed from the Origin
    of the request; no response of [src/index.ts] carries an
    Access-Control-Allow-Origin header. *)
Theorem X15_cors_on_every_response
    (P : Platform) (request : Request.t) (kv : gmap string KVEntry) :
  let origin := Headers.get (Request.headers request) "Origin" in
  (∀ env, ∃ resp (rest : list (string * string)),
     outcome (PartA.fetch P request env kv) = Returned resp
     ∧ Response.headers resp = (getCorsHeaders origin ++ rest)%list)
  ∧ (∀ env, ∃ resp (rest : list (string * string)),
       outcome (PartB.fetch P request env kv) = Returned resp
       ∧ Response.headers resp = (getCorsHeaders origin ++ rest)%list)
  ∧ (∀ env, ∃ resp,
       outcome (IndexTs.fetch P request env kv) = Returned resp
       ∧ Headers.get (Response.headers resp) "Access-Control-Allow-Origin" = None).
Proof.
  intros origin.
  split; [|split]; intros env; table; cases; cbn [outcome]; relayed;
    first [ eexists; split; [reflexivity|]; reflexivity
          | eexists; exists []; split; [reflexivity|]; by rewrite app_nil_r
          | eexists; eexists; split; [reflexivity|]; reflexivity ].
Qed.

(** X16.  In the first handler of [unnamed/part_000] the limiter is switched
    off for good: whatever the KV namespace holds, even a full bucket for
    the client, the run is the same, and the namespace is neither read nor
    changed. *)
Theorem X16_limiter_switched_off
    (P : Platform) (request : Request.t) (env : PartA.Env) (kv kv' : gmap string KVEntry) :
  outcome (PartA.fetch P request env kv) = outcome (PartA.fetch P request env kv')
  ∧ events (PartA.fetch P request env kv) = events (PartA.fetch P request env kv')
  ∧ store (PartA.fetch P request env kv) = kv
  ∧ kv_events (events (PartA.fetch P request env kv)) = [].
Proof.
  table. cases; repeat split.
Qed.

(** X17.  Only the first handler of [unnamed/part_000] looks at the path:
    for any path but "/" it answers 404 with the JSON body
    [{error: "Not Found", message}] and does nothing else.  The two other
    handlers serve every path alike. *)
Theorem X17_path_check
    (P : Platform) (request : Request.t) (kv : gmap string KVEntry) :
  String.eqb (Request.method request) "OPTIONS" = false →
  URL.pathname (Request.url request) ≠ "/" →
  let origin := Headers.get (Request.headers request) "Origin" in
  (∀ env,
     PartA.fetch P request env kv
     = {| outcome :=
            Returned
              {| Response.status := 404;
                 Response.headers :=
                   getCorsHeaders origin ++ [("Content-Type", "application/json")];
                 Response.body :=
                   Some (JS.JSON_stringify
                           [ ("error", JS.JString "Not Found");
                             ("message",
                              JS.JString ("路径 " +:+ URL.pathname (Request.url request)
                                          +:+ " 不存在")) ]) |};
          store := kv;
          events := [] |})
  ∧ (∀ env p, IndexTs.fetch P (with_pathname p request) env kv
              = IndexTs.fetch P request env kv)
  ∧ (∀ env p, PartB.fetch P (with_pathname p request) env kv
              = PartB.fetch P request env kv).
Proof.
  intros Hm Hp origin. split; [|split].
  - intros env. table. rewrite Hm.
    destruct (String.eqb_spec (URL.pathname (Request.url request)) "/"); [done|].
    reflexivity.
  - reflexivity.
  - reflexivity.
Qed.

Lemma X17_witness :
  Response.status
  <$> match outcome (PartA.fetch (sunny 125000)
                       (with_pathname "/favicon.ico" (get_root []))
                       {| PartA.WEATHER_API_KEY := PartA.Plain "k" |} ∅) with
      | Returned resp => Some resp
      | Threw _ => None
      end
  = Some 404.
Proof.
  pose proof (X17_path_check (sunny 125000) (with_pathname "/favicon.ico" (get_root [])) ∅
                eq_refl ltac:(discriminate)) as [HA _].
  by rewrite HA.
Defined.

(** X18.  A request touches no counter but its own: the store after a run
    differs from the store before at most at the limiter key of the client,
    and the only KV operations are the read of the test key "abc", the read
    of that key and a write to it with a TTL of 60 s. *)
Theorem X18_only_own_counter
    (P : Platform) (request : Request.t) (kv : gmap string KVEntry) :
  let key := fullKey P (getClientIP request) in
  let own (r : Run Response.t) :=
    delete key (store r) = delete key kv
    ∧ Forall (λ e, e = KVGet "abc" ∨ e = KVGet key
                   ∨ ∃ v, e = KVPut key v RATE_LIMIT_WINDOW)
             (kv_events (events r)) in
  (∀ env, own (IndexTs.fetch P request env kv))
  ∧ (∀ env, own (PartA.fetch P request env kv))
  ∧ (∀ env, own (PartB.fetch P request env kv)).
Proof.
  intros key own. unfold own, key.
  split; [|split]; intros env; table; cases; cbn [store events kv_events List.filter app];
    (split;
     [ by rewrite ?delete_insert_eq
     | repeat (apply List.Forall_cons;
               [ first [ by left | by right; left | by right; right; eexists ] |]);
       apply List.Forall_nil ]).
Qed.

(** ** The upstream URL *)

Lemma uri_safe_app (a b : string) : uri_safe (a +:+ b) = uri_safe a && uri_safe b.
Proof.
  induction a as [|c a IH]; [done|].
  change (String c a +:+ b) with (String c (a +:+ b)). cbn [uri_safe].
  rewrite IH. by rewrite andb_assoc.
Qed.

Lemma uri_safe_has_char (a : Z) (s : string) :
  JS.uriUnreserved a = false → a ≠ 37 → uri_safe s = true → has_char a s = false.
Proof.
  intros Hu Ha. induction s as [|c s IH]; [done|]. cbn [uri_safe has_char].
  intros [Hc Hs]%andb_true_iff. rewrite (IH Hs), orb_false_r.
  destruct (Z.eqb_spec (JS.code c) a) as [Heq | _]; [|done].
  rewrite Heq, Hu in Hc. cbn [orb] in Hc. apply Z.eqb_eq in Hc. lia.
Qed.

Lemma uri_safe_encodeURIComponent (s : string) : uri_safe (JS.encodeURIComponent s) = true.
Proof.
  induction s as [|c s IH]; [done|].
  cbn [JS.encodeURIComponent]. rewrite uri_safe_app, IH, andb_true_r.
  destruct c as [[] [] [] [] [] [] [] []]; reflexivity.
Qed.

(** X19.  The city is the only part of the upstream URL the client controls,
    and it goes in percent-encoded: between "?q=" and "&appid=" there is no
    "&", "=", "#", "?", "/" or space, so a city name cannot add or override
    a query parameter, and a name made of letters and digits goes in as it
    is. *)
Theorem X19_city_is_percent_encoded (city key : string) :
  let q := JS.encodeURIComponent city in
  apiUrl city key
  = "https://api.openweathermap.org/data/2.5/weather?q=" +:+ q
    +:+ "&appid=" +:+ key +:+ "&units=metric&lang=zh_cn"
  ∧ Forall (λ a, has_char a q = false) [38; 61; 35; 63; 47; 32]
  ∧ (if forallb (λ c, JS.uriUnreserved (JS.code c)) (list_ascii_of_string city)
     then q = city else True).
Proof.
  intros q. split; [reflexivity|]. split.
  - repeat constructor;
      (apply uri_safe_has_char; [reflexivity | lia | apply uri_safe_encodeURIComponent]).
  - unfold q. induction city as [|c city IH]; [done|].
    cbn [list_ascii_of_string forallb JS.encodeURIComponent].
    destruct (JS.uriUnreserved (JS.code c)); [|done]. cbn [andb].
    destruct (forallb _ _); [|done].
    change (String c EmptyString +:+ JS.encodeURIComponent city)
      with (String c (JS.encodeURIComponent city)).
    by rewrite IH.
Qed.

(** ** Requests in sequence *)

Lemma IndexTs_fetch_limiter
    (P : Platform) (request : Request.t) (env : IndexTs.Env) (kv : gmap string KVEntry) :
  store (IndexTs.fetch P request env kv)
  = store (checkRateLimit IndexTs.RATE_LIMIT P (getClientIP request) kv)
  ∧ upstream_calls (events (IndexTs.fetch P request env kv))
    = (if was_allowed (checkRateLimit IndexTs.RATE_LIMIT P (getClientIP request) kv)
       then [apiUrl (city_of request) (IndexTs.WEATHER_API_KEY env)] else []).
Proof.
  table. unfold was_allowed. rewrite checkRateLimit_run. cbv zeta.
  destruct (JS.ge _ _); split; reflexivity.
Qed.

Lemma IndexTs_serve_counts
    (env : IndexTs.Env) (requests : list (Platform * Request.t))
    (past : list (Platform * string)) (kv : gmap string KVEntry) :
  counts_calls IndexTs.RATE_LIMIT past kv →
  ∀ (i : nat) (r : Run Response.t) (c : Platform * Request.t),
    IndexTs_serve env requests kv !! i = Some r →
    requests !! i = Some c →
    upstream_calls (events r)
    = if bucket_count (past ++ take i (calls_of requests)) c.1 (getClientIP c.2)
         <? IndexTs.RATE_LIMIT
      then [apiUrl (city_of c.2) (IndexTs.WEATHER_API_KEY env)] else [].
Proof.
  revert past kv.
  induction requests as [|[P request] requests IH]; intros past kv Hinv i r c Hr Hc; [done|].
  destruct (IndexTs_fetch_limiter P request env kv) as [Hstore Hcalls].
  destruct i as [|i]; cbn -[IndexTs.fetch] in Hr, Hc.
  - injection Hr as <-. injection Hc as <-. cbn [take fst snd]. rewrite app_nil_r, Hcalls.
    unfold was_allowed.
    rewrite (decision_counts_calls _ past kv P (getClientIP request) Hinv).
    unfold decisionAt. by destruct (_ <? _).
  - cbn [calls_of map take fst snd]. fold (calls_of requests).
    rewrite (cons_middle (P, getClientIP request)), app_assoc.
    apply (IH _ (store (IndexTs.fetch P request env kv))); try done.
    rewrite Hstore. by apply checkRateLimit_counts_calls.
Qed.

(** X20.  End to end on [src/index.ts]: serving any sequence of requests
    from an empty KV namespace, a request calls the upstream (once, for its
    own city) exactly when fewer than 10 earlier requests came from the same
    client IP in the same minute; every other request is turned away before
    the upstream.  So no IP gets more than 10 upstream calls per window. *)
Theorem X20_ten_upstream_calls_per_window
    (env : IndexTs.Env) (requests : list (Platform * Request.t)) (i : nat) :
  upstream_calls ∘ events <$> IndexTs_serve env requests ∅ !! i
  = (λ c, if bucket_count (take i (calls_of requests)) c.1 (getClientIP c.2) <? 10
          then [apiUrl (city_of c.2) (IndexTs.WEATHER_API_KEY env)] else [])
    <$> requests !! i.
Proof.
  assert (Hlen : length (IndexTs_serve env requests ∅) = length requests).
  { generalize (∅ : gmap string KVEntry).
    induction requests as [|[P request] requests IH]; intros kv; [done|].
    cbn -[IndexTs.fetch]. by rewrite IH. }
  destruct (requests !! i) as [c|] eqn:Hc.
  - destruct (lookup_lt_is_Some_2 (IndexTs_serve env requests ∅) i) as [r Hr].
    { rewrite Hlen. by apply lookup_lt_Some in Hc. }
    rewrite Hr. cbn [fmap option_fmap option_map compose]. f_equal.
    exact (IndexTs_serve_counts env requests [] ∅ (counts_calls_empty _) i r c Hr Hc).
  - rewrite lookup_ge_None_2; [done|].
    rewrite Hlen. by apply lookup_ge_None_1.
Qed.
